(** * Checkpoint retention policies of Parakeet

    A shallow embedding of [parakeet/training/checkpoint.py]: the two
    classes [KBest] and [KLatest], which keep the K best-scoring or the K
    most recent checkpoints and call a save and a delete callback supplied
    by the caller.

    Conventions of the embedding.
    - A checkpoint identifier (a [Path] or [str]) is a [string].
    - A metric is a Python float.  Only its order is ever used ([<] in
      [should_save], [>] inside [max]); it is modelled as a rational [Q],
      compared with [Qcompare].  Every finite float is a rational and is
      ordered the same way; NaN and the infinities are outside the model.
    - A Python [dict] keeps its keys in insertion order, and
      [max(d, key=d.get)] returns the first maximal key in that order, so a
      dict is an association list with unique keys.
    - Methods that mutate [self] or call a callback live in a state and
      exception monad.  An exception leaves the mutations done so far in
      place, as in Python.
    - The callbacks act on an outside world [W] and may raise.  Every
      invocation is recorded in a trace, which is how the number and the
      order of the calls are observed. *)

From Stdlib Require Import List String ZArith QArith Qminmax Bool Lia Lqa.
Import ListNotations.

Local Open Scope string_scope.
Local Open Scope list_scope.
Local Open Scope Z_scope.

(** ** Exceptions and results *)

(** The built-in exceptions that the modelled code can raise by itself,
    and [OSError] for a failing file operation inside a callback. *)
Inductive exn : Set :=
| ValueError
| KeyError
| IndexError
| TypeError
| OSError.

Inductive result (A : Type) : Type :=
| Ret (a : A)
| Raise (e : exn).

Arguments Ret {A} a.
Arguments Raise {A} e.

Definition is_ret {A : Type} (r : result A) : bool :=
  match r with Ret _ => true | Raise _ => false end.

(** ** Metrics *)

(** [a < b] and [a > b] on floats. *)
Definition Qltb (a b : Q) : bool :=
  match (a ?= b)%Q with Lt => true | _ => false end.

Definition Qgtb (a b : Q) : bool :=
  match (a ?= b)%Q with Gt => true | _ => false end.

(** ** Insertion-ordered dictionaries *)

Module Dict.

Definition t : Type := list (string * Q).

Definition keys (d : t) : list string := map fst d.

(** [len(d)] *)
Definition len (d : t) : Z := Z.of_nat (List.length d).

(** [d.get(k)] *)
Fixpoint get (d : t) (k : string) : option Q :=
  match d with
  | [] => None
  | (k', v) :: d' => if String.eqb k' k then Some v else get d' k
  end.

(** [d[k]] *)
Definition getitem (d : t) (k : string) : result Q :=
  match get d k with
  | Some v => Ret v
  | None => Raise KeyError
  end.

Fixpoint remove (d : t) (k : string) : t :=
  match d with
  | [] => []
  | (k', v) :: d' =>
      if String.eqb k' k then d' else (k', v) :: remove d' k
  end.

(** [d.pop(k)]: the value and the dictionary without the key. *)
Definition pop (d : t) (k : string) : result (Q * t) :=
  match get d k with
  | Some v => Ret (v, remove d k)
  | None => Raise KeyError
  end.

(** [d[k] = v]: an existing key keeps its position, a new key goes to
    the end. *)
Fixpoint setitem (d : t) (k : string) (v : Q) : t :=
  match d with
  | [] => [(k, v)]
  | (k', v') :: d' =>
      if String.eqb k' k then (k', v) :: d'
      else (k', v') :: setitem d' k v
  end.

(** The loop of the built-in [max]: the running maximum is replaced only
    by a strictly greater value, so the first maximal item wins. *)
Fixpoint max_loop (maxitem : string) (maxval : Q) (it : t) : string :=
  match it with
  | [] => maxitem
  | (item, val) :: it' =>
      if Qgtb val maxval then max_loop item val it'
      else max_loop maxitem maxval it'
  end.

(** [max(d, key=d.get)].  The iteration is over the keys of [d] and
    [d.get] maps each to the value stored with it, so the loop runs over
    the items.  An empty dictionary raises [ValueError]. *)
Definition max_by_value (d : t) : result string :=
  match d with
  | [] => Raise ValueError
  | (item, val) :: it => Ret (max_loop item val it)
  end.

End Dict.

(** ** The state and exception monad *)

Inductive event : Set :=
| Save (p : string)
| Delete (p : string).

(** A callback takes an identifier, acts on the world, and returns
    normally ([None]) or raises. *)
Definition callback (W : Type) : Type := string -> W -> option exn * W.

Record state (W O : Type) : Type := mkState {
  self : O;
  world : W;
  trace : list event
}.

Arguments mkState {W O} self world trace.
Arguments self {W O} s.
Arguments world {W O} s.
Arguments trace {W O} s.

Definition M (W O A : Type) : Type := state W O -> result A * state W O.

Section Monad.
Context {W O : Type}.

Definition ret {A : Type} (a : A) : M W O A := fun s => (Ret a, s).

Definition bind {A B : Type} (m : M W O A) (k : A -> M W O B) : M W O B :=
  fun s =>
    match m s with
    | (Ret a, s') => k a s'
    | (Raise e, s') => (Raise e, s')
    end.

Definition raise {A : Type} (e : exn) : M W O A := fun s => (Raise e, s).

Definition lift {A : Type} (r : result A) : M W O A := fun s => (r, s).

Definition get_self : M W O O := fun s => (Ret (self s), s).

Definition set_self (o : O) : M W O unit :=
  fun s => (Ret tt, mkState o (world s) (trace s)).

(** Calling [f(p)]: the call is recorded, the callback acts on the world,
    and its exception, if any, propagates. *)
Definition invoke (ev : event) (f : callback W) (p : string) : M W O unit :=
  fun s =>
    let '(r, w') := f p (world s) in
    let s' := mkState (self s) w' (trace s ++ [ev]) in
    match r with
    | None => (Ret tt, s')
    | Some e => (Raise e, s')
    end.

End Monad.

Notation "x <- c1 ;; c2" := (bind c1 (fun x => c2))
  (at level 61, c1 at next level, right associativity).
Notation "c1 ;; c2" := (bind c1 (fun _ => c2))
  (at level 61, right associativity).

(** ** class KBest *)

Module KBest.

Record t (W : Type) : Type := mk {
  best_records : Dict.t;
  save_fn : option (callback W);
  del_fn : callback W;
  max_size : Z;
  _save_all : bool
}.

Arguments mk {W} best_records save_fn del_fn max_size _save_all.
Arguments best_records {W} t.
Arguments save_fn {W} t.
Arguments del_fn {W} t.
Arguments max_size {W} t.
Arguments _save_all {W} t.

Section Methods.
Context {W : Type}.

(** [__init__(self, max_size, save_fn, del_fn)] *)
Definition __init__ (max_size : Z) (save_fn : option (callback W))
    (del_fn : callback W) : result (t W) :=
  Ret {| best_records := [];
         save_fn := save_fn;
         del_fn := del_fn;
         max_size := max_size;
         _save_all := (max_size =? -1) |}.

(** [full(self)] *)
Definition full (self : t W) : bool :=
  negb (_save_all self) && (Dict.len (best_records self) =? max_size self).

(** [should_save(self, metric)]: reads [self], changes nothing. *)
Definition should_save (self : t W) (metric : Q) : result bool :=
  if negb (full self) then Ret true
  else
    match Dict.max_by_value (best_records self) with
    | Raise e => Raise e
    | Ret worst_record_path =>
        match Dict.getitem (best_records self) worst_record_path with
        | Raise e => Raise e
        | Ret worst_metric => Ret (Qltb metric worst_metric)
        end
    end.

(** The object after an update of the dictionary held in
    [self.best_records]; the other attributes are never reassigned. *)
Definition with_best_records (self : t W) (d : Dict.t) : t W :=
  {| best_records := d;
     save_fn := save_fn self;
     del_fn := del_fn self;
     max_size := max_size self;
     _save_all := _save_all self |}.

Definition set_best_records (d : Dict.t) : M W (t W) unit :=
  self <- get_self ;;
  set_self (with_best_records self d).

(** [self.save_fn(path)]; the default [save_fn=None] is not callable. *)
Definition call_save_fn (path : string) : M W (t W) unit :=
  self <- get_self ;;
  match save_fn self with
  | None => raise TypeError
  | Some f => invoke (Save path) f path
  end.

(** [self.del_fn(path)] *)
Definition call_del_fn (path : string) : M W (t W) unit :=
  self <- get_self ;;
  invoke (Delete path) (del_fn self) path.

(** [save_checkpoint_and_update(self, metric, path)] *)
Definition save_checkpoint_and_update (metric : Q) (path : string)
    : M W (t W) unit :=
  self <- get_self ;;
  (if full self then
     worst_record_path <- lift (Dict.max_by_value (best_records self)) ;;
     popped <- lift (Dict.pop (best_records self) worst_record_path) ;;
     set_best_records (snd popped) ;;
     call_del_fn worst_record_path
   else ret tt) ;;
  call_save_fn path ;;
  self <- get_self ;;
  set_best_records (Dict.setitem (best_records self) path metric).

(** [add_checkpoint(self, metric, path)] *)
Definition add_checkpoint (metric : Q) (path : string) : M W (t W) unit :=
  self <- get_self ;;
  should <- lift (should_save self metric) ;;
  if (should : bool) then save_checkpoint_and_update metric path
  else ret tt.

End Methods.

End KBest.

(** ** class KLatest *)

Module KLatest.

Record t (W : Type) : Type := mk {
  latest_records : list string;
  save_fn : option (callback W);
  del_fn : callback W;
  max_size : Z;
  _save_all : bool
}.

Arguments mk {W} latest_records save_fn del_fn max_size _save_all.
Arguments latest_records {W} t.
Arguments save_fn {W} t.
Arguments del_fn {W} t.
Arguments max_size {W} t.
Arguments _save_all {W} t.

Section Methods.
Context {W : Type}.

(** [__init__(self, max_size, save_fn, del_fn)] *)
Definition __init__ (max_size : Z) (save_fn : option (callback W))
    (del_fn : callback W) : result (t W) :=
  Ret {| latest_records := [];
         save_fn := save_fn;
         del_fn := del_fn;
         max_size := max_size;
         _save_all := (max_size =? -1) |}.

(** [full(self)] *)
Definition full (self : t W) : bool :=
  negb (_save_all self)
  && (Z.of_nat (List.length (latest_records self)) =? max_size self).

(** The object after an update of the list held in
    [self.latest_records]; the other attributes are never reassigned. *)
Definition with_latest_records (self : t W) (l : list string) : t W :=
  {| latest_records := l;
     save_fn := save_fn self;
     del_fn := del_fn self;
     max_size := max_size self;
     _save_all := _save_all self |}.

Definition set_latest_records (l : list string) : M W (t W) unit :=
  self <- get_self ;;
  set_self (with_latest_records self l).

(** [self.latest_records.pop(0)]; an empty list raises [IndexError]. *)
Definition pop_front : M W (t W) string :=
  self <- get_self ;;
  match latest_records self with
  | [] => raise IndexError
  | x :: l => set_latest_records l ;; ret x
  end.

(** [self.save_fn(path)]; the default [save_fn=None] is not callable. *)
Definition call_save_fn (path : string) : M W (t W) unit :=
  self <- get_self ;;
  match save_fn self with
  | None => raise TypeError
  | Some f => invoke (Save path) f path
  end.

(** [self.del_fn(path)] *)
Definition call_del_fn (path : string) : M W (t W) unit :=
  self <- get_self ;;
  invoke (Delete path) (del_fn self) path.

(** [save_checkpoint_and_update(self, path)] *)
Definition save_checkpoint_and_update (path : string) : M W (t W) unit :=
  self <- get_self ;;
  (if full self then
     eariest_record_path <- pop_front ;;
     call_del_fn eariest_record_path
   else ret tt) ;;
  call_save_fn path ;;
  self <- get_self ;;
  set_latest_records (latest_records self ++ [path]).

(** [add_checkpoint(self, path)] *)
Definition add_checkpoint (path : string) : M W (t W) unit :=
  save_checkpoint_and_update path.

End Methods.

End KLatest.

(** ** Callers *)

(** A retainer fresh from its constructor, in a world [w], with no call
    made yet. *)
Definition start {W O : Type} (o : O) (w : W) : state W O := mkState o w [].

(** The caller's loop [for metric, path in offers:
    manager.add_checkpoint(metric, path)]; an exception ends it. *)
Fixpoint kbest_offer_all {W : Type} (offers : list (Q * string))
    : M W (KBest.t W) unit :=
  match offers with
  | [] => ret tt
  | (metric, path) :: rest =>
      KBest.add_checkpoint metric path ;; kbest_offer_all rest
  end.

(** The caller's loop [for path in offers: manager.add_checkpoint(path)]. *)
Fixpoint klatest_offer_all {W : Type} (offers : list string)
    : M W (KLatest.t W) unit :=
  match offers with
  | [] => ret tt
  | path :: rest => KLatest.add_checkpoint path ;; klatest_offer_all rest
  end.

(** The states a [KBest] object can be in: the one its constructor leaves,
    and the one after any further call of [add_checkpoint], whether that
    call returned or raised (a caller may catch the exception and go on).
    Between two calls the world may change under the retainer. *)
Inductive kbest_reachable {W : Type} (max_size : Z)
    : state W (KBest.t W) -> Prop :=
| kbest_reach_init : forall save_fn del_fn o w,
    KBest.__init__ max_size save_fn del_fn = Ret o ->
    kbest_reachable max_size (start o w)
| kbest_reach_step : forall s metric path,
    kbest_reachable max_size s ->
    kbest_reachable max_size (snd (KBest.add_checkpoint metric path s))
| kbest_reach_world : forall s w,
    kbest_reachable max_size s ->
    kbest_reachable max_size (mkState (self s) w (trace s)).

Inductive klatest_reachable {W : Type} (max_size : Z)
    : state W (KLatest.t W) -> Prop :=
| klatest_reach_init : forall save_fn del_fn o w,
    KLatest.__init__ max_size save_fn del_fn = Ret o ->
    klatest_reachable max_size (start o w)
| klatest_reach_step : forall s path,
    klatest_reachable max_size s ->
    klatest_reachable max_size (snd (KLatest.add_checkpoint path s))
| klatest_reach_world : forall s w,
    klatest_reachable max_size s ->
    klatest_reachable max_size (mkState (self s) w (trace s)).

(** The identifiers on which each callback was invoked, in order. *)
Definition saved (tr : list event) : list string :=
  flat_map (fun ev => match ev with Save p => [p] | Delete _ => [] end) tr.

Definition deleted (tr : list event) : list string :=
  flat_map (fun ev => match ev with Save _ => [] | Delete p => [p] end) tr.

(** A callback that returns normally whatever it is given. *)
Definition never_raises {W : Type} (f : callback W) : Prop :=
  forall p w, fst (f p w) = None.

(** ** Example worlds *)

(** A directory of checkpoint files: saving creates the file, deleting
    removes it and fails, like [os.remove], when the file is missing. *)
Definition fs_save : callback (list string) :=
  fun p files => (None, p :: files).

Definition fs_remove : callback (list string) :=
  fun p files =>
    if existsb (String.eqb p) files
    then (None, filter (fun q => negb (String.eqb p q)) files)
    else (Some OSError, files).

(** Deleting without complaint when the file is missing, like
    [Path.unlink(missing_ok=True)]. *)
Definition fs_discard : callback (list string) :=
  fun p files => (None, filter (fun q => negb (String.eqb p q)) files).

(** A storage whose delete operation always fails. *)
Definition failing_remove : callback (list string) :=
  fun p files => (Some OSError, files).

(** A [KBest] and a [KLatest] object over that directory, with a given
    content of the tracking structure. *)
Definition fs_kbest (max_size : Z) (del_fn : callback (list string))
    (records : Dict.t) : KBest.t (list string) :=
  KBest.mk records (Some fs_save) del_fn max_size (max_size =? -1).

Definition fs_klatest (max_size : Z) (del_fn : callback (list string))
    (records : list string) : KLatest.t (list string) :=
  KLatest.mk records (Some fs_save) del_fn max_size (max_size =? -1).

(** ** Reference simulation of Best-K *)

(** Follows the words of the specification, not the code: an offer is
    accepted iff there is free capacity or its score is strictly lower than
    the current worst retained score; an accepted offer at capacity evicts
    the worst-scoring retained identifier (the first one in iteration order
    among equals) and then inserts the new pair.  There are no callbacks and
    no exceptions here, and the worst entry is found by its score: first the
    greatest retained score, then the first identifier that has it. *)
Module Reference.

Definition worst_score (retained : Dict.t) : option Q :=
  match retained with
  | [] => None
  | (_, score) :: rest => Some (fold_left Qmax (map snd rest) score)
  end.

Definition worst_id (retained : Dict.t) : option string :=
  match worst_score retained with
  | None => None
  | Some worst =>
      option_map fst (find (fun entry => Qeq_bool (snd entry) worst) retained)
  end.

Definition has_free_capacity (K : Z) (retained : Dict.t) : bool :=
  Dict.len retained <? K.

Definition accepts (K : Z) (retained : Dict.t) (score : Q) : bool :=
  has_free_capacity K retained
  || match worst_score retained with
     | Some worst => Qltb score worst
     | None => false
     end.

Definition offer (K : Z) (retained : Dict.t) (o : Q * string) : Dict.t :=
  let '(score, id) := o in
  if accepts K retained score then
    if has_free_capacity K retained then Dict.setitem retained id score
    else
      match worst_id retained with
      | Some worst => Dict.setitem (Dict.remove retained worst) id score
      | None => retained
      end
  else retained.

Definition simulate (K : Z) (offers : list (Q * string)) : Dict.t :=
  fold_left (offer K) offers [].

End Reference.

(** ** Expected contents *)

(** The last [k] elements of a list, in order, and the ones before them. *)
Definition last_k {A : Type} (k : nat) (l : list A) : list A :=
  skipn (List.length l - k) l.

Definition before_last_k {A : Type} (k : nat) (l : list A) : list A :=
  firstn (List.length l - k) l.

(** The dictionary after [d[path] = metric] for every offer in turn. *)
Definition set_all (offers : list (Q * string)) (d : Dict.t) : Dict.t :=
  fold_left (fun d o => Dict.setitem d (snd o) (fst o)) offers d.

(** ** class Config: merging the command line *)

(** [parakeet/utils/conf.py], method [merge_args].  The namespace
    dictionary [vars(args)] maps each option name to its value, [None] for
    an option that was not passed.  The libraries [flatdict] and [attrdict]
    are not part of the repository: [FlatDict(args_dict, delimiter=".")
    .as_dict()] and [self.update] are parameters of the model.  The [for]
    loop runs on the dictionary's item iterator, which remembers the size
    the dictionary had when the loop started and raises [RuntimeError] as
    soon as it is asked for the next item of a dictionary of another
    size. *)
Module Conf.

Inductive error : Set :=
| RuntimeError
| KeyError.

Inductive res (A : Type) : Type :=
| Ok (a : A)
| Err (e : error).

Arguments Ok {A} a.
Arguments Err {A} e.

Section MergeArgs.
Variables V C N : Type.
Variable as_dict : list (string * option V) -> N.
Variable update : C -> N -> C.

Definition namespace : Type := list (string * option V).

(** [k in d] *)
Fixpoint contains (d : namespace) (k : string) : bool :=
  match d with
  | [] => false
  | (k', _) :: d' => String.eqb k' k || contains d' k
  end.

(** The dictionary after [d.pop(k)], for a key that is present. *)
Fixpoint remove (d : namespace) (k : string) : namespace :=
  match d with
  | [] => []
  | (k', v) :: d' =>
      if String.eqb k' k then d' else (k', v) :: remove d' k
  end.

Record dictiter : Set := mkIter {
  di_used : nat;
  di_pos : nat
}.

(** [iter(d.items())] *)
Definition items_iter (d : namespace) : dictiter :=
  mkIter (List.length d) 0.

(** [next(it)]: [Ok None] stands for [StopIteration]. *)
Definition iternext (it : dictiter) (d : namespace)
    : res (option ((string * option V) * dictiter)) :=
  if Nat.eqb (di_used it) (List.length d) then
    match nth_error d (di_pos it) with
    | Some item => Ok (Some (item, mkIter (di_used it) (S (di_pos it))))
    | None => Ok None
    end
  else Err RuntimeError.

(** [for k, v in args_dict.items(): if v is None: args_dict.pop(k)].
    Each round asks the iterator for the next item; [fuel] bounds the
    number of rounds, and [None] means that it ran out. *)
Fixpoint drop_unset (fuel : nat) (it : dictiter) (args_dict : namespace)
    : option (res unit * namespace) :=
  match fuel with
  | O => None
  | S fuel' =>
      match iternext it args_dict with
      | Err e => Some (Err e, args_dict)
      | Ok None => Some (Ok tt, args_dict)
      | Ok (Some ((k, v), it')) =>
          match v with
          | None => drop_unset fuel' it' (remove args_dict k)
          | Some _ => drop_unset fuel' it' args_dict
          end
      end
  end.

(** [merge_args(self, args)]: the outcome, the configuration and the
    namespace dictionary afterwards. *)
Definition merge_args (self : C) (args_dict : namespace)
    : option (res unit * C * namespace) :=
  match drop_unset (S (List.length args_dict)) (items_iter args_dict)
          args_dict with
  | None => None
  | Some (Err e, d) => Some (Err e, self, d)
  | Some (Ok _, d) =>
      if contains d "config" then
        Some (Ok tt, update self (as_dict (remove d "config")),
              remove d "config")
      else Some (Err KeyError, self, d)
  end.

End MergeArgs.

End Conf.

(** * Properties *)

(** ** Comparisons *)

Lemma Qltb_lt (a b : Q) : Qltb a b = true <-> (a < b)%Q.
Proof.
  unfold Qltb. rewrite Qlt_alt. destruct (a ?= b)%Q; split; congruence.
Qed.

Lemma Qgtb_gt (a b : Q) : Qgtb a b = true <-> (b < a)%Q.
Proof.
  unfold Qgtb. rewrite Qgt_alt. destruct (a ?= b)%Q; split; congruence.
Qed.

Lemma Qgtb_le (a b : Q) : Qgtb a b = false <-> (a <= b)%Q.
Proof.
  unfold Qgtb. rewrite Qle_alt.
  destruct (a ?= b)%Q; split; try congruence; intro H; now elim H.
Qed.

(** ** Dictionaries *)

Lemma dict_get_in_keys (d : Dict.t) (k : string) :
  Dict.get d k <> None <-> In k (Dict.keys d).
Proof.
  induction d as [|[k' v] d IH]; simpl.
  - split; [congruence | tauto].
  - destruct (String.eqb_spec k' k) as [->|Hne].
    + split; [auto | congruence].
    + rewrite IH. split; [auto | intros [H|H]; [contradiction | exact H]].
Qed.

Lemma dict_length_remove (d : Dict.t) (k : string) (v : Q) :
  Dict.get d k = Some v -> S (List.length (Dict.remove d k)) = List.length d.
Proof.
  induction d as [|[k' v'] d IH]; simpl; [congruence|].
  destruct (String.eqb k' k); [reflexivity|].
  intros H. simpl. now rewrite IH.
Qed.

Lemma dict_length_setitem_present (d : Dict.t) (k : string) (v : Q) :
  Dict.get d k <> None ->
  List.length (Dict.setitem d k v) = List.length d.
Proof.
  induction d as [|[k' v'] d IH]; simpl; [congruence|].
  destruct (String.eqb k' k); [reflexivity|].
  intros H. simpl. now rewrite IH.
Qed.

Lemma dict_length_setitem_absent (d : Dict.t) (k : string) (v : Q) :
  Dict.get d k = None ->
  List.length (Dict.setitem d k v) = S (List.length d).
Proof.
  induction d as [|[k' v'] d IH]; simpl; [reflexivity|].
  destruct (String.eqb k' k); [congruence|].
  intros H. simpl. now rewrite IH.
Qed.

Lemma dict_length_setitem_le (d : Dict.t) (k : string) (v : Q) :
  (List.length (Dict.setitem d k v) <= S (List.length d))%nat.
Proof.
  destruct (Dict.get d k) eqn:E.
  - rewrite dict_length_setitem_present; [lia | congruence].
  - rewrite dict_length_setitem_absent; [lia | exact E].
Qed.

Lemma dict_get_setitem_same (d : Dict.t) (k : string) (v : Q) :
  Dict.get (Dict.setitem d k v) k = Some v.
Proof.
  induction d as [|[k' v'] d IH]; simpl.
  - now rewrite String.eqb_refl.
  - destruct (String.eqb k' k) eqn:E; simpl; rewrite E; [reflexivity | exact IH].
Qed.

Lemma dict_get_setitem_other (d : Dict.t) (k k' : string) (v : Q) :
  k <> k' -> Dict.get (Dict.setitem d k v) k' = Dict.get d k'.
Proof.
  intros Hne. induction d as [|[k0 v0] d IH]; simpl.
  - destruct (String.eqb_spec k k'); [contradiction | reflexivity].
  - destruct (String.eqb_spec k0 k) as [->|Hk]; simpl.
    + destruct (String.eqb_spec k k'); [contradiction | reflexivity].
    + now rewrite IH.
Qed.

Lemma dict_max_loop_in (it : Dict.t) (k0 : string) (v0 : Q) :
  Dict.max_loop k0 v0 it = k0 \/ In (Dict.max_loop k0 v0 it) (Dict.keys it).
Proof.
  revert k0 v0. induction it as [|[k v] it IH]; intros k0 v0; simpl.
  - now left.
  - destruct (Qgtb v v0).
    + destruct (IH k v) as [->|H]; auto.
    + destruct (IH k0 v0) as [->|H]; auto.
Qed.

Lemma dict_max_by_value_in (d : Dict.t) (k : string) :
  Dict.max_by_value d = Ret k -> In k (Dict.keys d).
Proof.
  destruct d as [|[k0 v0] it]; simpl; [discriminate|].
  intros [= <-]. destruct (dict_max_loop_in it k0 v0) as [->|H]; auto.
Qed.

Lemma dict_max_by_value_get (d : Dict.t) (k : string) :
  Dict.max_by_value d = Ret k -> exists v, Dict.get d k = Some v.
Proof.
  intros H. apply dict_max_by_value_in, dict_get_in_keys in H.
  destruct (Dict.get d k) as [v|]; [now exists v | congruence].
Qed.

Lemma dict_max_by_value_raise (d : Dict.t) (e : exn) :
  Dict.max_by_value d = Raise e -> d = [] /\ e = ValueError.
Proof.
  destruct d as [|[k0 v0] it]; simpl; [intros [= <-]; auto | discriminate].
Qed.

(** ** One offer to a KBest retainer, case by case *)

Ltac unfold_monad :=
  unfold bind, ret, lift, raise, get_self, set_self, invoke in *.

Ltac unfold_kbest :=
  unfold KBest.add_checkpoint, KBest.save_checkpoint_and_update,
    KBest.call_save_fn, KBest.call_del_fn, KBest.set_best_records,
    KBest.should_save, Dict.getitem, Dict.pop in *.

(** Runs the monadic code of a method as far as the equations among the
    hypotheses decide its branches. *)
Ltac run_with_hyps :=
  repeat (simpl;
          match goal with
          | H : ?l = _ |- context [?l] => rewrite H
          end);
  simpl; rewrite <- ?app_assoc; simpl.

Section KBestStep.
Context {W : Type}.
Implicit Types (s : state W (KBest.t W)) (metric : Q) (path : string).

Lemma kbest_should_save_free (o : KBest.t W) metric :
  KBest.full o = false -> KBest.should_save o metric = Ret true.
Proof. intros H. unfold KBest.should_save. now rewrite H. Qed.

Lemma kbest_should_save_full (o : KBest.t W) metric k wm :
  KBest.full o = true ->
  Dict.max_by_value (KBest.best_records o) = Ret k ->
  Dict.get (KBest.best_records o) k = Some wm ->
  KBest.should_save o metric = Ret (Qltb metric wm).
Proof.
  intros Hfull Hmax Hget. unfold KBest.should_save, Dict.getitem.
  now rewrite Hfull, Hmax, Hget.
Qed.

Lemma kbest_should_save_empty (o : KBest.t W) metric :
  KBest.full o = true ->
  KBest.best_records o = [] ->
  KBest.should_save o metric = Raise ValueError.
Proof.
  intros Hfull Hd. unfold KBest.should_save. now rewrite Hfull, Hd.
Qed.

(** [should_save] raises only through [max] of an empty dictionary. *)
Lemma kbest_should_save_raise (o : KBest.t W) metric e :
  KBest.should_save o metric = Raise e ->
  KBest.full o = true /\ KBest.best_records o = [] /\ e = ValueError.
Proof.
  unfold KBest.should_save, Dict.getitem.
  destruct (KBest.full o); simpl; [|discriminate].
  destruct (Dict.max_by_value (KBest.best_records o)) as [k|e'] eqn:Hmax.
  - destruct (dict_max_by_value_get _ _ Hmax) as [v ->]. discriminate.
  - intros [= <-]. apply dict_max_by_value_raise in Hmax. tauto.
Qed.

Lemma kbest_add_rejected s metric path :
  KBest.should_save (self s) metric = Ret false ->
  KBest.add_checkpoint metric path s = (Ret tt, s).
Proof.
  intros H. unfold KBest.add_checkpoint. unfold_monad. simpl.
  now rewrite H.
Qed.

Lemma kbest_add_raised s metric path e :
  KBest.should_save (self s) metric = Raise e ->
  KBest.add_checkpoint metric path s = (Raise e, s).
Proof.
  intros H. unfold KBest.add_checkpoint. unfold_monad. simpl.
  now rewrite H.
Qed.

Lemma kbest_add_accepted s metric path :
  KBest.should_save (self s) metric = Ret true ->
  KBest.add_checkpoint metric path s =
  KBest.save_checkpoint_and_update metric path s.
Proof.
  intros H. unfold KBest.add_checkpoint. unfold_monad. simpl.
  now rewrite H.
Qed.

(** *** Free capacity *)

Lemma kbest_update_free_ok s metric path f w' :
  KBest.full (self s) = false ->
  KBest.save_fn (self s) = Some f ->
  f path (world s) = (None, w') ->
  KBest.save_checkpoint_and_update metric path s =
  (Ret tt,
   mkState
     (KBest.with_best_records (self s)
        (Dict.setitem (KBest.best_records (self s)) path metric))
     w' (trace s ++ [Save path])).
Proof.
  intros Hfull Hsave Hf. unfold_kbest. unfold_monad.
  destruct s as [o w tr]; simpl in *. now run_with_hyps.
Qed.

Lemma kbest_update_free_save_raises s metric path f e w' :
  KBest.full (self s) = false ->
  KBest.save_fn (self s) = Some f ->
  f path (world s) = (Some e, w') ->
  KBest.save_checkpoint_and_update metric path s =
  (Raise e, mkState (self s) w' (trace s ++ [Save path])).
Proof.
  intros Hfull Hsave Hf. unfold_kbest. unfold_monad.
  destruct s as [o w tr]; simpl in *. now run_with_hyps.
Qed.

Lemma kbest_update_free_no_save_fn s metric path :
  KBest.full (self s) = false ->
  KBest.save_fn (self s) = None ->
  KBest.save_checkpoint_and_update metric path s = (Raise TypeError, s).
Proof.
  intros Hfull Hsave. unfold_kbest. unfold_monad.
  destruct s as [o w tr]; simpl in *. now run_with_hyps.
Qed.

(** *** At capacity *)

Lemma kbest_update_full_empty s metric path :
  KBest.full (self s) = true ->
  KBest.best_records (self s) = [] ->
  KBest.save_checkpoint_and_update metric path s = (Raise ValueError, s).
Proof.
  intros Hfull Hd. unfold_kbest. unfold_monad.
  destruct s as [o w tr]; simpl in *. now run_with_hyps.
Qed.

Lemma kbest_update_full_del_raises s metric path k e w' :
  KBest.full (self s) = true ->
  Dict.max_by_value (KBest.best_records (self s)) = Ret k ->
  KBest.del_fn (self s) k (world s) = (Some e, w') ->
  KBest.save_checkpoint_and_update metric path s =
  (Raise e,
   mkState
     (KBest.with_best_records (self s)
        (Dict.remove (KBest.best_records (self s)) k))
     w' (trace s ++ [Delete k])).
Proof.
  intros Hfull Hmax Hdel.
  destruct (dict_max_by_value_get _ _ Hmax) as [wm Hget].
  unfold_kbest. unfold_monad.
  destruct s as [o w tr]; simpl in *. now run_with_hyps.
Qed.

Lemma kbest_update_full_ok s metric path k w1 f w2 :
  KBest.full (self s) = true ->
  Dict.max_by_value (KBest.best_records (self s)) = Ret k ->
  KBest.del_fn (self s) k (world s) = (None, w1) ->
  KBest.save_fn (self s) = Some f ->
  f path w1 = (None, w2) ->
  KBest.save_checkpoint_and_update metric path s =
  (Ret tt,
   mkState
     (KBest.with_best_records (self s)
        (Dict.setitem (Dict.remove (KBest.best_records (self s)) k)
           path metric))
     w2 (trace s ++ [Delete k; Save path])).
Proof.
  intros Hfull Hmax Hdel Hsave Hf.
  destruct (dict_max_by_value_get _ _ Hmax) as [wm Hget].
  unfold_kbest. unfold_monad.
  destruct s as [o w tr]; simpl in *. now run_with_hyps.
Qed.

Lemma kbest_update_full_save_raises s metric path k w1 f e w2 :
  KBest.full (self s) = true ->
  Dict.max_by_value (KBest.best_records (self s)) = Ret k ->
  KBest.del_fn (self s) k (world s) = (None, w1) ->
  KBest.save_fn (self s) = Some f ->
  f path w1 = (Some e, w2) ->
  KBest.save_checkpoint_and_update metric path s =
  (Raise e,
   mkState
     (KBest.with_best_records (self s)
        (Dict.remove (KBest.best_records (self s)) k))
     w2 (trace s ++ [Delete k; Save path])).
Proof.
  intros Hfull Hmax Hdel Hsave Hf.
  destruct (dict_max_by_value_get _ _ Hmax) as [wm Hget].
  unfold_kbest. unfold_monad.
  destruct s as [o w tr]; simpl in *. now run_with_hyps.
Qed.

Lemma kbest_update_full_no_save_fn s metric path k w1 :
  KBest.full (self s) = true ->
  Dict.max_by_value (KBest.best_records (self s)) = Ret k ->
  KBest.del_fn (self s) k (world s) = (None, w1) ->
  KBest.save_fn (self s) = None ->
  KBest.save_checkpoint_and_update metric path s =
  (Raise TypeError,
   mkState
     (KBest.with_best_records (self s)
        (Dict.remove (KBest.best_records (self s)) k))
     w1 (trace s ++ [Delete k])).
Proof.
  intros Hfull Hmax Hdel Hsave.
  destruct (dict_max_by_value_get _ _ Hmax) as [wm Hget].
  unfold_kbest. unfold_monad.
  destruct s as [o w tr]; simpl in *. now run_with_hyps.
Qed.

End KBestStep.

(** ** One offer to a KLatest retainer, case by case *)

Ltac unfold_klatest :=
  unfold KLatest.add_checkpoint, KLatest.save_checkpoint_and_update,
    KLatest.call_save_fn, KLatest.call_del_fn, KLatest.pop_front,
    KLatest.set_latest_records in *.

Section KLatestStep.
Context {W : Type}.
Implicit Types (s : state W (KLatest.t W)) (path : string).

Lemma klatest_add_free_ok s path f w' :
  KLatest.full (self s) = false ->
  KLatest.save_fn (self s) = Some f ->
  f path (world s) = (None, w') ->
  KLatest.add_checkpoint path s =
  (Ret tt,
   mkState
     (KLatest.with_latest_records (self s)
        (KLatest.latest_records (self s) ++ [path]))
     w' (trace s ++ [Save path])).
Proof.
  intros Hfull Hsave Hf. unfold_klatest. unfold_monad.
  destruct s as [o w tr]; simpl in *. now run_with_hyps.
Qed.

Lemma klatest_add_free_save_raises s path f e w' :
  KLatest.full (self s) = false ->
  KLatest.save_fn (self s) = Some f ->
  f path (world s) = (Some e, w') ->
  KLatest.add_checkpoint path s =
  (Raise e, mkState (self s) w' (trace s ++ [Save path])).
Proof.
  intros Hfull Hsave Hf. unfold_klatest. unfold_monad.
  destruct s as [o w tr]; simpl in *. now run_with_hyps.
Qed.

Lemma klatest_add_free_no_save_fn s path :
  KLatest.full (self s) = false ->
  KLatest.save_fn (self s) = None ->
  KLatest.add_checkpoint path s = (Raise TypeError, s).
Proof.
  intros Hfull Hsave. unfold_klatest. unfold_monad.
  destruct s as [o w tr]; simpl in *. now run_with_hyps.
Qed.

Lemma klatest_add_full_empty s path :
  KLatest.full (self s) = true ->
  KLatest.latest_records (self s) = [] ->
  KLatest.add_checkpoint path s = (Raise IndexError, s).
Proof.
  intros Hfull Hl. unfold_klatest. unfold_monad.
  destruct s as [o w tr]; simpl in *. now run_with_hyps.
Qed.

Lemma klatest_add_full_del_raises s path x l e w' :
  KLatest.full (self s) = true ->
  KLatest.latest_records (self s) = x :: l ->
  KLatest.del_fn (self s) x (world s) = (Some e, w') ->
  KLatest.add_checkpoint path s =
  (Raise e,
   mkState (KLatest.with_latest_records (self s) l)
     w' (trace s ++ [Delete x])).
Proof.
  intros Hfull Hl Hdel. unfold_klatest. unfold_monad.
  destruct s as [o w tr]; simpl in *. now run_with_hyps.
Qed.

Lemma klatest_add_full_ok s path x l w1 f w2 :
  KLatest.full (self s) = true ->
  KLatest.latest_records (self s) = x :: l ->
  KLatest.del_fn (self s) x (world s) = (None, w1) ->
  KLatest.save_fn (self s) = Some f ->
  f path w1 = (None, w2) ->
  KLatest.add_checkpoint path s =
  (Ret tt,
   mkState (KLatest.with_latest_records (self s) (l ++ [path]))
     w2 (trace s ++ [Delete x; Save path])).
Proof.
  intros Hfull Hl Hdel Hsave Hf. unfold_klatest. unfold_monad.
  destruct s as [o w tr]; simpl in *. now run_with_hyps.
Qed.

Lemma klatest_add_full_save_raises s path x l w1 f e w2 :
  KLatest.full (self s) = true ->
  KLatest.latest_records (self s) = x :: l ->
  KLatest.del_fn (self s) x (world s) = (None, w1) ->
  KLatest.save_fn (self s) = Some f ->
  f path w1 = (Some e, w2) ->
  KLatest.add_checkpoint path s =
  (Raise e,
   mkState (KLatest.with_latest_records (self s) l)
     w2 (trace s ++ [Delete x; Save path])).
Proof.
  intros Hfull Hl Hdel Hsave Hf. unfold_klatest. unfold_monad.
  destruct s as [o w tr]; simpl in *. now run_with_hyps.
Qed.

Lemma klatest_add_full_no_save_fn s path x l w1 :
  KLatest.full (self s) = true ->
  KLatest.latest_records (self s) = x :: l ->
  KLatest.del_fn (self s) x (world s) = (None, w1) ->
  KLatest.save_fn (self s) = None ->
  KLatest.add_checkpoint path s =
  (Raise TypeError,
   mkState (KLatest.with_latest_records (self s) l)
     w1 (trace s ++ [Delete x])).
Proof.
  intros Hfull Hl Hdel Hsave. unfold_klatest. unfold_monad.
  destruct s as [o w tr]; simpl in *. now run_with_hyps.
Qed.

End KLatestStep.

(** ** What one offer can do to the tracking structure *)

Section Frames.
Context {W : Type}.

Lemma kbest_with_best_records_id (o : KBest.t W) :
  KBest.with_best_records o (KBest.best_records o) = o.
Proof. now destruct o. Qed.

(** Whatever the callbacks do, an offer leaves the dictionary as it was,
    or sets the new key, or pops the worst key, or does both. *)
Lemma kbest_step_records (s : state W (KBest.t W)) metric path :
  let d := KBest.best_records (self s) in
  exists d',
    self (snd (KBest.add_checkpoint metric path s))
    = KBest.with_best_records (self s) d' /\
    (d' = d
     \/ (KBest.full (self s) = false /\ d' = Dict.setitem d path metric)
     \/ (KBest.full (self s) = true /\
         exists k, Dict.max_by_value d = Ret k /\
           (d' = Dict.remove d k
            \/ d' = Dict.setitem (Dict.remove d k) path metric))).
Proof.
  intros d. subst d.
  assert (Hid := kbest_with_best_records_id (self s)).
  destruct (KBest.full (self s)) eqn:Hfull.
  - destruct (Dict.max_by_value (KBest.best_records (self s)))
      as [k|e] eqn:Hmax.
    + destruct (dict_max_by_value_get _ _ Hmax) as [wm Hget].
      assert (Hs := kbest_should_save_full _ metric _ _ Hfull Hmax Hget).
      destruct (Qltb metric wm).
      * rewrite (kbest_add_accepted _ _ _ Hs).
        destruct (KBest.del_fn (self s) k (world s)) as [[e|] w1] eqn:Hdel.
        { rewrite (kbest_update_full_del_raises _ _ _ _ _ _ Hfull Hmax Hdel).
          eexists; split; [reflexivity|]. right; right. eauto. }
        destruct (KBest.save_fn (self s)) as [f|] eqn:Hsave.
        { destruct (f path w1) as [[e|] w2] eqn:Hf.
          - rewrite (kbest_update_full_save_raises
                       _ _ _ _ _ _ _ _ Hfull Hmax Hdel Hsave Hf).
            eexists; split; [reflexivity|]. right; right. eauto.
          - rewrite (kbest_update_full_ok
                       _ _ _ _ _ _ _ Hfull Hmax Hdel Hsave Hf).
            eexists; split; [reflexivity|]. right; right. eauto. }
        rewrite (kbest_update_full_no_save_fn
                   _ _ _ _ _ Hfull Hmax Hdel Hsave).
        eexists; split; [reflexivity|]. right; right. eauto.
      * rewrite (kbest_add_rejected _ _ _ Hs). simpl. exists (KBest.best_records (self s)). rewrite Hid. auto.
    + apply dict_max_by_value_raise in Hmax as [Hd ->].
      rewrite (kbest_add_raised _ _ _ _
                 (kbest_should_save_empty _ metric Hfull Hd)).
      simpl. exists (KBest.best_records (self s)). rewrite Hid. auto.
  - rewrite (kbest_add_accepted _ _ _
               (kbest_should_save_free _ metric Hfull)).
    destruct (KBest.save_fn (self s)) as [f|] eqn:Hsave.
    + destruct (f path (world s)) as [[e|] w'] eqn:Hf.
      * rewrite (kbest_update_free_save_raises _ _ _ _ _ _ Hfull Hsave Hf).
        simpl. exists (KBest.best_records (self s)). rewrite Hid. auto.
      * rewrite (kbest_update_free_ok _ _ _ _ _ Hfull Hsave Hf).
        eexists; split; [reflexivity|]. right; left. auto.
    + rewrite (kbest_update_free_no_save_fn _ _ _ Hfull Hsave).
      simpl. exists (KBest.best_records (self s)). rewrite Hid. auto.
Qed.

Lemma klatest_with_latest_records_id (o : KLatest.t W) :
  KLatest.with_latest_records o (KLatest.latest_records o) = o.
Proof. now destruct o. Qed.

(** Whatever the callbacks do, an offer leaves the list as it was, or
    appends the new identifier, or pops the first one, or does both. *)
Lemma klatest_step_records (s : state W (KLatest.t W)) path :
  let l := KLatest.latest_records (self s) in
  exists l',
    self (snd (KLatest.add_checkpoint path s))
    = KLatest.with_latest_records (self s) l' /\
    (l' = l
     \/ (KLatest.full (self s) = false /\ l' = l ++ [path])
     \/ (KLatest.full (self s) = true /\
         exists x l0, l = x :: l0 /\ (l' = l0 \/ l' = l0 ++ [path]))).
Proof.
  intros l. subst l.
  assert (Hid := klatest_with_latest_records_id (self s)).
  destruct (KLatest.full (self s)) eqn:Hfull.
  - destruct (KLatest.latest_records (self s)) as [|x l] eqn:Hl.
    + rewrite (klatest_add_full_empty _ _ Hfull Hl). simpl.
      exists []. rewrite Hid. auto.
    + destruct (KLatest.del_fn (self s) x (world s)) as [[e|] w1] eqn:Hdel.
      { rewrite (klatest_add_full_del_raises _ _ _ _ _ _ Hfull Hl Hdel).
        eexists; split; [reflexivity|]. right; right. split; [reflexivity|]. exists x, l. auto. }
      destruct (KLatest.save_fn (self s)) as [f|] eqn:Hsave.
      { destruct (f path w1) as [[e|] w2] eqn:Hf.
        - rewrite (klatest_add_full_save_raises
                     _ _ _ _ _ _ _ _ Hfull Hl Hdel Hsave Hf).
          eexists; split; [reflexivity|]. right; right. split; [reflexivity|]. exists x, l. auto.
        - rewrite (klatest_add_full_ok
                     _ _ _ _ _ _ _ Hfull Hl Hdel Hsave Hf).
          eexists; split; [reflexivity|]. right; right. split; [reflexivity|]. exists x, l. auto. }
      rewrite (klatest_add_full_no_save_fn _ _ _ _ _ Hfull Hl Hdel Hsave).
      eexists; split; [reflexivity|]. right; right. split; [reflexivity|]. exists x, l. auto.
  - destruct (KLatest.save_fn (self s)) as [f|] eqn:Hsave.
    + destruct (f path (world s)) as [[e|] w'] eqn:Hf.
      * rewrite (klatest_add_free_save_raises _ _ _ _ _ Hfull Hsave Hf).
        simpl. exists (KLatest.latest_records (self s)). rewrite Hid. auto.
      * rewrite (klatest_add_free_ok _ _ _ _ Hfull Hsave Hf).
        eexists; split; [reflexivity|]. right; left. auto.
    + rewrite (klatest_add_free_no_save_fn _ _ Hfull Hsave).
      simpl. exists (KLatest.latest_records (self s)). rewrite Hid. auto.
Qed.

End Frames.

(** ** Capacity *)

Section Capacity.
Context {W : Type}.

(** The attributes set by the constructor are never reassigned, and with
    a capacity of zero or more the dictionary never outgrows it. *)
Lemma kbest_reachable_inv (K : Z) (s : state W (KBest.t W)) :
  kbest_reachable K s ->
  KBest.max_size (self s) = K /\
  KBest._save_all (self s) = (K =? -1) /\
  (0 <= K -> Dict.len (KBest.best_records (self s)) <= K).
Proof.
  induction 1 as [sf df o w Hinit | s metric path Hreach IH | s w Hreach IH].
  - injection Hinit as <-. simpl. repeat split. unfold Dict.len. simpl. lia.
  - destruct IH as (Hmax & Hall & Hlen).
    destruct (kbest_step_records s metric path) as (d' & -> & Hd').
    simpl. repeat split; try assumption. intros HK. specialize (Hlen HK).
    unfold KBest.full, Dict.len in *. rewrite Hall, Hmax in Hd'.
    replace (K =? -1) with false in Hd' by (symmetry; apply Z.eqb_neq; lia).
    simpl in Hd'.
    destruct Hd' as [-> | [[Hfree ->] | [Hfull (k & Hk & [-> | ->])]]].
    + exact Hlen.
    + apply Z.eqb_neq in Hfree.
      pose proof (dict_length_setitem_le
                    (KBest.best_records (self s)) path metric). lia.
    + destruct (dict_max_by_value_get _ _ Hk) as [v Hv].
      pose proof (dict_length_remove _ _ _ Hv). lia.
    + destruct (dict_max_by_value_get _ _ Hk) as [v Hv].
      pose proof (dict_length_remove _ _ _ Hv).
      pose proof (dict_length_setitem_le
                    (Dict.remove (KBest.best_records (self s)) k)
                    path metric). lia.
  - exact IH.
Qed.

Lemma klatest_reachable_inv (K : Z) (s : state W (KLatest.t W)) :
  klatest_reachable K s ->
  KLatest.max_size (self s) = K /\
  KLatest._save_all (self s) = (K =? -1) /\
  (0 <= K ->
   Z.of_nat (List.length (KLatest.latest_records (self s))) <= K).
Proof.
  induction 1 as [sf df o w Hinit | s path Hreach IH | s w Hreach IH].
  - injection Hinit as <-. simpl. repeat split. lia.
  - destruct IH as (Hmax & Hall & Hlen).
    destruct (klatest_step_records s path) as (l' & -> & Hl').
    simpl. repeat split; try assumption. intros HK. specialize (Hlen HK).
    unfold KLatest.full in *. rewrite Hall, Hmax in Hl'.
    replace (K =? -1) with false in Hl' by (symmetry; apply Z.eqb_neq; lia).
    simpl in Hl'.
    destruct Hl' as [-> | [[Hfree ->] | [Hfull (x & l0 & Hl & [-> | ->])]]].
    + exact Hlen.
    + apply Z.eqb_neq in Hfree. rewrite length_app. simpl. lia.
    + rewrite Hl in Hlen. cbn [List.length] in Hlen. lia.
    + rewrite Hl in Hlen. rewrite length_app.
      cbn [List.length] in *. lia.
  - exact IH.
Qed.

(** C3.  For a [KBest] or a [KLatest] retainer constructed with a
    capacity [max_size >= 0] (bounded, not the sentinel [-1]), in every
    state reached from the empty one by any number of offers, whatever
    the callbacks do, the number of retained identifiers is at most
    [max_size]. *)
Theorem capacity_invariant (max_size : Z) :
  0 <= max_size ->
  (forall s : state W (KBest.t W),
      kbest_reachable max_size s ->
      Dict.len (KBest.best_records (self s)) <= max_size) /\
  (forall s : state W (KLatest.t W),
      klatest_reachable max_size s ->
      Z.of_nat (List.length (KLatest.latest_records (self s)))
      <= max_size).
Proof.
  intros HK. split; intros s Hs.
  - now apply kbest_reachable_inv.
  - now apply klatest_reachable_inv.
Qed.

End Capacity.

Lemma capacity_invariant_witness :
  0 <= 2 /\
  Dict.len
    (KBest.best_records
       (self
          (snd
             (KBest.add_checkpoint (1 # 10) "c"
                (snd
                   (KBest.add_checkpoint (3 # 10) "b"
                      (snd
                         (KBest.add_checkpoint (5 # 10) "a"
                            (start (fs_kbest 2 fs_remove []) []))))))))) <= 2 /\
  Z.of_nat
    (List.length
       (KLatest.latest_records
          (self
             (snd
                (KLatest.add_checkpoint "z"
                   (snd
                      (KLatest.add_checkpoint "y"
                         (snd
                            (KLatest.add_checkpoint "x"
                               (start (fs_klatest 2 failing_remove []) []))))))))))
  <= 2.
Proof.
  assert (H : 0 <= 2) by lia.
  split; [exact H|].
  destruct (capacity_invariant (W := list string) 2 H) as [HB HL].
  split.
  - apply HB. do 3 apply kbest_reach_step.
    apply (kbest_reach_init 2 (Some fs_save) fs_remove). reflexivity.
  - apply HL. do 3 apply klatest_reach_step.
    apply (klatest_reach_init 2 (Some fs_save) failing_remove). reflexivity.
Defined.

(** ** A rejected offer *)

Section Rejected.
Context {W : Type}.

(** C9.  When [should_save(metric)] is false, [add_checkpoint] returns
    normally and leaves everything as it was: the retained mapping, the
    world the callbacks act on, and the trace of callback invocations (so
    neither callback is invoked); hence [full()] gives the same answer
    before and after. *)
Theorem rejected_offer_is_noop (s : state W (KBest.t W)) (metric : Q)
    (path : string) :
  KBest.should_save (self s) metric = Ret false ->
  KBest.add_checkpoint metric path s = (Ret tt, s) /\
  KBest.best_records (self (snd (KBest.add_checkpoint metric path s)))
  = KBest.best_records (self s) /\
  trace (snd (KBest.add_checkpoint metric path s)) = trace s /\
  world (snd (KBest.add_checkpoint metric path s)) = world s /\
  KBest.full (self (snd (KBest.add_checkpoint metric path s)))
  = KBest.full (self s).
Proof.
  intros H. rewrite (kbest_add_rejected s metric path H). simpl. auto.
Qed.

End Rejected.

Lemma rejected_offer_is_noop_witness :
  KBest.should_save
    (fs_kbest 2 fs_remove [("a", 5 # 10); ("b", 3 # 10)]) (7 # 10)
  = Ret false /\
  KBest.add_checkpoint (7 # 10) "c"
    (mkState (fs_kbest 2 fs_remove [("a", 5 # 10); ("b", 3 # 10)])
       ["b"; "a"] [Save "a"; Save "b"])
  = (Ret tt,
     mkState (fs_kbest 2 fs_remove [("a", 5 # 10); ("b", 3 # 10)])
       ["b"; "a"] [Save "a"; Save "b"]).
Proof.
  assert (H : KBest.should_save
                (fs_kbest 2 fs_remove [("a", 5 # 10); ("b", 3 # 10)]) (7 # 10)
              = Ret false) by reflexivity.
  split; [exact H|].
  exact (proj1 (rejected_offer_is_noop
                  (mkState (fs_kbest 2 fs_remove [("a", 5 # 10); ("b", 3 # 10)])
                     ["b"; "a"] [Save "a"; Save "b"])
                  (7 # 10) "c" H)).
Defined.

(** ** Traces *)

Lemma saved_app (tr1 tr2 : list event) :
  saved (tr1 ++ tr2) = saved tr1 ++ saved tr2.
Proof. apply flat_map_app. Qed.

Lemma deleted_app (tr1 tr2 : list event) :
  deleted (tr1 ++ tr2) = deleted tr1 ++ deleted tr2.
Proof. apply flat_map_app. Qed.

(** ** Unique keys *)

Lemma dict_get_not_in_keys (d : Dict.t) (k : string) :
  ~ In k (Dict.keys d) -> Dict.get d k = None.
Proof.
  intros H. destruct (Dict.get d k) eqn:E; [|reflexivity].
  exfalso. apply H, dict_get_in_keys. congruence.
Qed.

Lemma dict_keys_remove_incl (d : Dict.t) (k x : string) :
  In x (Dict.keys (Dict.remove d k)) -> In x (Dict.keys d).
Proof.
  induction d as [|[k' v] d IH]; simpl; [tauto|].
  destruct (String.eqb k' k); simpl; tauto.
Qed.

Lemma dict_nodup_remove (d : Dict.t) (k : string) :
  NoDup (Dict.keys d) -> NoDup (Dict.keys (Dict.remove d k)).
Proof.
  induction d as [|[k' v] d IH]; simpl; [auto|].
  intros H. inversion H as [|? ? Hnotin Hnd]; subst.
  destruct (String.eqb k' k); [exact Hnd|].
  simpl. constructor; [|auto].
  intros Hin. apply Hnotin. eapply dict_keys_remove_incl, Hin.
Qed.

Lemma dict_get_remove_same (d : Dict.t) (k : string) :
  NoDup (Dict.keys d) -> Dict.get (Dict.remove d k) k = None.
Proof.
  induction d as [|[k' v] d IH]; simpl; [reflexivity|].
  intros H. inversion H as [|? ? Hnotin Hnd]; subst.
  destruct (String.eqb_spec k' k) as [->|Hne].
  - now apply dict_get_not_in_keys.
  - simpl. destruct (String.eqb_spec k' k); [contradiction | auto].
Qed.

Lemma dict_keys_setitem (d : Dict.t) (k : string) (v : Q) :
  Dict.keys (Dict.setitem d k v)
  = if existsb (String.eqb k) (Dict.keys d) then Dict.keys d
    else Dict.keys d ++ [k].
Proof.
  induction d as [|[k' v'] d IH]; simpl; [reflexivity|].
  rewrite (String.eqb_sym k k').
  destruct (String.eqb k' k); simpl; [reflexivity|].
  rewrite IH. now destruct (existsb (String.eqb k) (Dict.keys d)).
Qed.

Lemma dict_nodup_setitem (d : Dict.t) (k : string) (v : Q) :
  NoDup (Dict.keys d) -> NoDup (Dict.keys (Dict.setitem d k v)).
Proof.
  intros H. rewrite dict_keys_setitem.
  destruct (existsb (String.eqb k) (Dict.keys d)) eqn:E; [exact H|].
  apply NoDup_app; [exact H | constructor; [simpl; tauto | constructor] |].
  intros x Hx [Heq|[]]. subst x.
  assert (existsb (String.eqb k) (Dict.keys d) = true); [|congruence].
  apply existsb_exists. exists k. split; [exact Hx | apply String.eqb_refl].
Qed.

(** ** Offering an identifier that is already retained *)

Section Duplicate.
Context {W : Type}.

(** C10.  For a [KBest] retainer that is not full, offering an identifier
    already present in [best_records] (with a save callback that returns)
    calls [save_fn] once more, stores the new score under that identifier,
    leaves the other entries and the size of the mapping as they were, and
    does not call [del_fn]. *)
Theorem duplicate_identifier_overwrites (s : state W (KBest.t W))
    (metric : Q) (path : string) (f : callback W) (w' : W) :
  KBest.full (self s) = false ->
  In path (Dict.keys (KBest.best_records (self s))) ->
  KBest.save_fn (self s) = Some f ->
  f path (world s) = (None, w') ->
  exists d',
    KBest.add_checkpoint metric path s
    = (Ret tt,
       mkState (KBest.with_best_records (self s) d') w'
         (trace s ++ [Save path])) /\
    d' = Dict.setitem (KBest.best_records (self s)) path metric /\
    Dict.get d' path = Some metric /\
    (forall k, k <> path ->
               Dict.get d' k = Dict.get (KBest.best_records (self s)) k) /\
    Dict.len d' = Dict.len (KBest.best_records (self s)) /\
    deleted (trace s ++ [Save path]) = deleted (trace s) /\
    saved (trace s ++ [Save path]) = saved (trace s) ++ [path].
Proof.
  intros Hfull Hin Hsave Hf.
  exists (Dict.setitem (KBest.best_records (self s)) path metric).
  rewrite (kbest_add_accepted _ _ _ (kbest_should_save_free _ metric Hfull)).
  rewrite (kbest_update_free_ok _ _ _ _ _ Hfull Hsave Hf).
  repeat split.
  - apply dict_get_setitem_same.
  - intros k Hk. apply dict_get_setitem_other. congruence.
  - unfold Dict.len. rewrite dict_length_setitem_present; [reflexivity|].
    now apply dict_get_in_keys.
  - rewrite deleted_app. simpl. apply app_nil_r.
  - now rewrite saved_app.
Qed.

End Duplicate.

Lemma duplicate_identifier_overwrites_witness :
  KBest.add_checkpoint (9 # 10) "a"
    (mkState (fs_kbest 3 fs_remove [("a", 5 # 10); ("b", 3 # 10)])
       ["b"; "a"] [Save "a"; Save "b"])
  = (Ret tt,
     mkState (fs_kbest 3 fs_remove [("a", 9 # 10); ("b", 3 # 10)])
       ["a"; "b"; "a"] [Save "a"; Save "b"; Save "a"]).
Proof.
  destruct (duplicate_identifier_overwrites
              (mkState (fs_kbest 3 fs_remove [("a", 5 # 10); ("b", 3 # 10)])
                 ["b"; "a"] [Save "a"; Save "b"])
              (9 # 10) "a" fs_save ["a"; "b"; "a"])
    as (d' & Hrun & Hd' & _).
  - reflexivity.
  - simpl. auto.
  - reflexivity.
  - reflexivity.
  - rewrite Hrun, Hd'. reflexivity.
Defined.

(** ** Capacity zero *)

(** C5 (the code departs from it).  A [KBest] retainer constructed with
    [max_size = 0] is full while empty, so [should_save] goes on to take
    the [max] of an empty dictionary: it raises [ValueError] instead of
    returning false, and [add_checkpoint] propagates the exception instead
    of returning.  Neither callback is invoked and nothing is retained. *)
Theorem kbest_capacity_zero_raises {W : Type} (save_fn : option (callback W))
    (del_fn : callback W) (metric : Q) (path : string) (w : W) :
  exists o,
    KBest.__init__ 0 save_fn del_fn = Ret o /\
    KBest.full o = true /\
    KBest.should_save o metric = Raise ValueError /\
    KBest.add_checkpoint metric path (start o w)
    = (Raise ValueError, start o w).
Proof.
  eexists. split; [reflexivity|]. repeat split.
Qed.

(** The same at the first offer of a concrete run. *)
Lemma kbest_capacity_zero_example :
  kbest_offer_all [(5 # 10, "a"); (3 # 10, "b")]
    (start (fs_kbest 0 fs_remove []) [])
  = (Raise ValueError, start (fs_kbest 0 fs_remove []) []).
Proof. reflexivity. Qed.

(** ** Construction *)

(** C6 (as stated it fails).  The constructors do not look at [max_size]:
    with [max_size = -5] both return an object; no error is signalled. *)
Lemma negative_max_size_is_accepted :
  KBest.__init__ (-5) (Some fs_save) fs_remove
  = Ret (fs_kbest (-5) fs_remove []) /\
  is_ret (KBest.__init__ (-5) (Some fs_save) fs_remove) = true /\
  KLatest.__init__ (-5) (Some fs_save) fs_remove
  = Ret (fs_klatest (-5) fs_remove []) /\
  is_ret (KLatest.__init__ (-5) (Some fs_save) fs_remove) = true.
Proof. repeat split. Qed.

Section Construction.
Context {W : Type}.

(** C6, amended.  Constructing a retainer with a [max_size] that is
    negative and not the sentinel [-1] signals no error: the constructor
    returns an empty retainer that stores this [max_size] with the
    unbounded flag off, and such a retainer is never full, whatever it
    holds. *)
Theorem negative_max_size_not_validated (max_size : Z)
    (save_fn : option (callback W)) (del_fn : callback W) :
  max_size < 0 ->
  max_size <> -1 ->
  (exists o,
      KBest.__init__ max_size save_fn del_fn = Ret o /\
      KBest.best_records o = [] /\
      KBest.max_size o = max_size /\
      KBest._save_all o = false /\
      forall d, KBest.full (KBest.with_best_records o d) = false) /\
  (exists o,
      KLatest.__init__ max_size save_fn del_fn = Ret o /\
      KLatest.latest_records o = [] /\
      KLatest.max_size o = max_size /\
      KLatest._save_all o = false /\
      forall l, KLatest.full (KLatest.with_latest_records o l) = false).
Proof.
  intros Hneg Hsent.
  assert (Hflag : (max_size =? -1) = false) by now apply Z.eqb_neq.
  split; eexists; (split; [reflexivity|]); simpl; repeat split;
    try exact Hflag.
  - intros d. unfold KBest.full, Dict.len. simpl. rewrite Hflag. simpl.
    apply Z.eqb_neq. lia.
  - intros l. unfold KLatest.full. simpl. rewrite Hflag. simpl.
    apply Z.eqb_neq. lia.
Qed.

End Construction.

Lemma negative_max_size_not_validated_witness :
  KBest.__init__ (-5) (Some fs_save) fs_remove
  = Ret (fs_kbest (-5) fs_remove []) /\
  KBest.full (fs_kbest (-5) fs_remove [("a", 1 # 2)]) = false.
Proof.
  assert (Hneg : -5 < 0) by lia.
  assert (Hsent : -5 <> -1) by lia.
  destruct (negative_max_size_not_validated
              (W := list string) (-5) (Some fs_save) fs_remove Hneg Hsent)
    as [(o & Hinit & _ & _ & _ & Hfull) _].
  split; [reflexivity|].
  injection Hinit as <-. exact (Hfull [("a", 1 # 2)]).
Defined.

(** ** A delete callback that fails during an eviction *)


Section DeleteFailure.
Context {W : Type}.


End DeleteFailure.


(** ** The callbacks invoked by one offer *)

Section CallbackOrder.
Context {W : Type}.

(** Where an eviction has something to evict.  In both retainers, for an
    accepted offer whose callbacks return normally: with free capacity the
    offer invokes [save_fn] exactly once and [del_fn] not at all; at
    capacity, with at least one identifier tracked, it invokes [del_fn]
    exactly once, on the evicted identifier, and then [save_fn] exactly
    once.  (Every offer to a [KLatest] is accepted; an offer to a [KBest]
    is accepted when [should_save] is true.)  A [KLatest] of capacity zero
    is full with nothing tracked and is left out here; the theorem after
    this one is about it. *)
Theorem callback_counts_and_order :
  (forall (s : state W (KBest.t W)) metric path f,
      KBest.should_save (self s) metric = Ret true ->
      KBest.save_fn (self s) = Some f ->
      (KBest.full (self s) = false ->
       trace (snd (KBest.add_checkpoint metric path s))
       = trace s ++ [Save path]) /\
      (KBest.full (self s) = true ->
       exists k,
         Dict.max_by_value (KBest.best_records (self s)) = Ret k /\
         (fst (KBest.del_fn (self s) k (world s)) = None ->
          trace (snd (KBest.add_checkpoint metric path s))
          = trace s ++ [Delete k; Save path]))) /\
  (forall (s : state W (KLatest.t W)) path f,
      KLatest.save_fn (self s) = Some f ->
      (KLatest.full (self s) = false ->
       trace (snd (KLatest.add_checkpoint path s))
       = trace s ++ [Save path]) /\
      (KLatest.full (self s) = true ->
       forall x l,
         KLatest.latest_records (self s) = x :: l ->
         fst (KLatest.del_fn (self s) x (world s)) = None ->
         trace (snd (KLatest.add_checkpoint path s))
         = trace s ++ [Delete x; Save path])).
Proof.
  split.
  - intros s metric path f Hshould Hsave.
    rewrite (kbest_add_accepted _ _ _ Hshould). split; intros Hfull.
    + destruct (f path (world s)) as [[e|] w'] eqn:Hf.
      * now rewrite (kbest_update_free_save_raises
                       _ _ _ _ _ _ Hfull Hsave Hf).
      * now rewrite (kbest_update_free_ok _ _ _ _ _ Hfull Hsave Hf).
    + destruct (Dict.max_by_value (KBest.best_records (self s)))
        as [k|e] eqn:Hmax.
      * exists k. split; [reflexivity|].
        destruct (KBest.del_fn (self s) k (world s)) as [r w1] eqn:Hdel.
        simpl. intros ->.
        destruct (f path w1) as [[e|] w2] eqn:Hf.
        -- now rewrite (kbest_update_full_save_raises
                          _ _ _ _ _ _ _ _ Hfull Hmax Hdel Hsave Hf).
        -- now rewrite (kbest_update_full_ok
                          _ _ _ _ _ _ _ Hfull Hmax Hdel Hsave Hf).
      * apply dict_max_by_value_raise in Hmax as [Hd _].
        rewrite (kbest_should_save_empty _ metric Hfull Hd) in Hshould.
        discriminate.
  - intros s path f Hsave. split; intros Hfull.
    + destruct (f path (world s)) as [[e|] w'] eqn:Hf.
      * now rewrite (klatest_add_free_save_raises _ _ _ _ _ Hfull Hsave Hf).
      * now rewrite (klatest_add_free_ok _ _ _ _ Hfull Hsave Hf).
    + intros x l Hl.
      destruct (KLatest.del_fn (self s) x (world s)) as [r w1] eqn:Hdel.
      simpl. intros ->.
      destruct (f path w1) as [[e|] w2] eqn:Hf.
      * now rewrite (klatest_add_full_save_raises
                       _ _ _ _ _ _ _ _ Hfull Hl Hdel Hsave Hf).
      * now rewrite (klatest_add_full_ok
                       _ _ _ _ _ _ _ Hfull Hl Hdel Hsave Hf).
Qed.

End CallbackOrder.

Lemma callback_counts_and_order_witness :
  trace
    (snd
       (KBest.add_checkpoint (1 # 10) "c"
          (mkState (fs_kbest 2 fs_remove [("a", 5 # 10); ("b", 3 # 10)])
             ["b"; "a"] [Save "a"; Save "b"])))
  = [Save "a"; Save "b"] ++ [Delete "a"; Save "c"] /\
  trace
    (snd
       (KLatest.add_checkpoint "c"
          (mkState (fs_klatest 2 fs_remove ["a"; "b"])
             ["b"; "a"] [Save "a"; Save "b"])))
  = [Save "a"; Save "b"] ++ [Delete "a"; Save "c"].
Proof.
  destruct (callback_counts_and_order (W := list string)) as [HB HL].
  split.
  - destruct (HB (mkState (fs_kbest 2 fs_remove [("a", 5 # 10); ("b", 3 # 10)])
                    ["b"; "a"] [Save "a"; Save "b"])
                (1 # 10) "c" fs_save eq_refl eq_refl) as [_ Hfull].
    destruct (Hfull eq_refl) as (k & Hk & Htrace).
    injection Hk as <-. apply Htrace. reflexivity.
  - destruct (HL (mkState (fs_klatest 2 fs_remove ["a"; "b"])
                    ["b"; "a"] [Save "a"; Save "b"])
                "c" fs_save eq_refl) as [_ Hfull].
    apply (Hfull eq_refl "a" ["b"]); reflexivity.
Defined.

(** C8 (the code departs from it).  A [KLatest] constructed with
    [max_size = 0] is at its bounded capacity from the start, and
    [add_checkpoint] accepts every offer without a test.  Yet such an offer
    invokes neither callback: [pop(0)] on the empty list raises
    [IndexError] before [del_fn] and [save_fn] are reached, where an
    accepted offer at capacity should invoke [del_fn] once and then
    [save_fn] once.  Nothing is tracked afterwards, and every later offer
    goes the same way. *)
Theorem klatest_capacity_zero_invokes_nothing {W : Type}
    (f del : callback W) (path : string) (rest : list string) (w : W) :
  exists o,
    KLatest.__init__ 0 (Some f) del = Ret o /\
    KLatest.full o = true /\
    fst (KLatest.add_checkpoint path (start o w)) = Raise IndexError /\
    saved (trace (snd (KLatest.add_checkpoint path (start o w)))) = [] /\
    deleted (trace (snd (KLatest.add_checkpoint path (start o w)))) = [] /\
    KLatest.latest_records
      (self (snd (KLatest.add_checkpoint path (start o w)))) = [] /\
    klatest_offer_all (path :: rest) (start o w)
    = (Raise IndexError, start o w).
Proof.
  eexists. split; [reflexivity|]. repeat split.
Qed.

(** ** The last K of a sequence *)

Lemma skipn_cons_step {A : Type} (i : nat) (l : list A) (y : A) (r : list A) :
  skipn i l = y :: r ->
  skipn (S i) l = r /\ firstn (S i) l = firstn i l ++ [y].
Proof.
  revert l. induction i as [|i IH]; intros l H.
  - simpl in H. subst l. now split.
  - destruct l as [|a l]; [discriminate|].
    rewrite skipn_cons in H. destruct (IH l H) as [Hs Hf].
    split; [exact Hs|]. rewrite (firstn_cons (S i)), Hf. reflexivity.
Qed.

Lemma length_last_k {A : Type} (k : nat) (l : list A) :
  List.length (last_k k l) = Nat.min (List.length l) k.
Proof. unfold last_k. rewrite length_skipn. lia. Qed.

Lemma last_k_before_last_k {A : Type} (k : nat) (l : list A) :
  before_last_k k l ++ last_k k l = l.
Proof. apply firstn_skipn. Qed.

Lemma last_k_snoc_short {A : Type} (k : nat) (l : list A) (x : A) :
  (List.length l < k)%nat ->
  last_k k (l ++ [x]) = last_k k l ++ [x] /\
  before_last_k k (l ++ [x]) = before_last_k k l.
Proof.
  intros H. unfold last_k, before_last_k. rewrite length_app. simpl.
  replace (List.length l + 1 - k)%nat with 0%nat by lia.
  replace (List.length l - k)%nat with 0%nat by lia.
  now split.
Qed.

Lemma last_k_snoc_long {A : Type} (k : nat) (l : list A) (x y : A)
    (r : list A) :
  (1 <= k <= List.length l)%nat ->
  last_k k l = y :: r ->
  last_k k (l ++ [x]) = r ++ [x] /\
  before_last_k k (l ++ [x]) = before_last_k k l ++ [y].
Proof.
  intros Hk Hy. unfold last_k, before_last_k in *.
  destruct (skipn_cons_step _ _ _ _ Hy) as [Hs Hf].
  rewrite length_app. simpl.
  replace (List.length l + 1 - k)%nat with (S (List.length l - k)) by lia.
  rewrite skipn_app, firstn_app, Hs, Hf.
  replace (S (List.length l - k) - List.length l)%nat with 0%nat by lia.
  simpl. split; [reflexivity | now rewrite app_nil_r].
Qed.

(** ** Runs of offers *)

Section Runs.
Context {W : Type}.

Lemma klatest_offer_all_app (l1 l2 : list string)
    (s : state W (KLatest.t W)) :
  klatest_offer_all (l1 ++ l2) s
  = match klatest_offer_all l1 s with
    | (Ret _, s1) => klatest_offer_all l2 s1
    | (Raise e, s1) => (Raise e, s1)
    end.
Proof.
  revert s. induction l1 as [|x l1 IH]; intros s; simpl.
  - reflexivity.
  - unfold bind. destruct (KLatest.add_checkpoint x s) as [[[]|e] s1].
    + apply IH.
    + reflexivity.
Qed.

Lemma kbest_offer_all_app (l1 l2 : list (Q * string))
    (s : state W (KBest.t W)) :
  kbest_offer_all (l1 ++ l2) s
  = match kbest_offer_all l1 s with
    | (Ret _, s1) => kbest_offer_all l2 s1
    | (Raise e, s1) => (Raise e, s1)
    end.
Proof.
  revert s. induction l1 as [|[m p] l1 IH]; intros s; simpl.
  - reflexivity.
  - unfold bind. destruct (KBest.add_checkpoint m p s) as [[[]|e] s1].
    + apply IH.
    + reflexivity.
Qed.

Lemma never_raises_call (f : callback W) (p : string) (w : W) :
  never_raises f -> exists w', f p w = (None, w').
Proof.
  intros H. specialize (H p w). destruct (f p w) as [r w'].
  simpl in H. subst r. now exists w'.
Qed.

End Runs.

(** ** Latest-K *)

Section LatestK.
Context {W : Type}.
Variables (K : Z) (save del : callback W).
Hypothesis K_pos : 1 <= K.
Hypothesis save_returns : never_raises save.
Hypothesis del_returns : never_raises del.

Let o : KLatest.t W := KLatest.mk [] (Some save) del K (K =? -1).

Lemma klatest_run (offers : list string) (w : W) :
  exists w' tr,
    klatest_offer_all offers (start o w)
    = (Ret tt,
       mkState
         (KLatest.with_latest_records o (last_k (Z.to_nat K) offers)) w' tr)
    /\ saved tr = offers
    /\ deleted tr = before_last_k (Z.to_nat K) offers.
Proof.
  induction offers as [|x offers IH] using rev_ind.
  - exists w, []. repeat split.
  - destruct IH as (w1 & tr & Hrun & Hsaved & Hdel).
    rewrite klatest_offer_all_app, Hrun. simpl. unfold bind.
    set (s1 := mkState
                 (KLatest.with_latest_records o (last_k (Z.to_nat K) offers))
                 w1 tr).
    assert (Hflag : (K =? -1) = false) by (apply Z.eqb_neq; lia).
    destruct (Nat.lt_ge_cases (List.length offers) (Z.to_nat K)) as [Hlt|Hge].
    + assert (Hfull : KLatest.full (self s1) = false).
      { unfold KLatest.full. simpl. rewrite Hflag, length_last_k. simpl.
        apply Z.eqb_neq. lia. }
      destruct (never_raises_call save x w1 save_returns) as [w2 Hf].
      rewrite (klatest_add_free_ok s1 x save w2 Hfull eq_refl Hf).
      destruct (last_k_snoc_short (Z.to_nat K) offers x Hlt) as [-> ->].
      exists w2, (tr ++ [Save x]). simpl.
      rewrite saved_app, deleted_app, Hsaved, Hdel. simpl.
      rewrite app_nil_r. repeat split.
    + assert (Hfull : KLatest.full (self s1) = true).
      { unfold KLatest.full. simpl. rewrite Hflag, length_last_k. simpl.
        apply Z.eqb_eq. lia. }
      destruct (last_k (Z.to_nat K) offers) as [|y r] eqn:Hlast.
      { pose proof (length_last_k (Z.to_nat K) offers) as Hl.
        rewrite Hlast in Hl. simpl in Hl. lia. }
      destruct (never_raises_call del y w1 del_returns) as [w2 Hd].
      destruct (never_raises_call save x w2 save_returns) as [w3 Hf].
      rewrite (klatest_add_full_ok s1 x y r w2 save w3
                 Hfull eq_refl Hd eq_refl Hf).
      destruct (last_k_snoc_long (Z.to_nat K) offers x y r) as [-> ->];
        [lia | exact Hlast |].
      exists w3, (tr ++ [Delete y; Save x]). simpl.
      rewrite saved_app, deleted_app, Hsaved, Hdel. simpl.
      repeat split.
Qed.


(** C2.  For a [KLatest] retainer with capacity [K >= 1] whose callbacks
    return normally, and every sequence of offered identifiers (distinct or
    not): the run returns normally, the retained sequence is the last
    [min(n, K)] offered identifiers in offer order, [save_fn] has been
    invoked on every offered identifier in order (no offer is rejected),
    and [del_fn] has been invoked exactly on the identifiers before that
    suffix, oldest first.  The sequence is arbitrary and any longer run
    goes on from the state described, so this holds after each offer. *)
Theorem latest_k_correct (offers : list string) (w : W) :
  exists o' s',
    KLatest.__init__ K (Some save) del = Ret o' /\
    klatest_offer_all offers (start o' w) = (Ret tt, s') /\
    (forall rest,
        klatest_offer_all (offers ++ rest) (start o' w)
        = klatest_offer_all rest s') /\
    KLatest.latest_records (self s') = last_k (Z.to_nat K) offers /\
    List.length (KLatest.latest_records (self s'))
    = Nat.min (List.length offers) (Z.to_nat K) /\
    saved (trace s') = offers /\
    deleted (trace s') = before_last_k (Z.to_nat K) offers /\
    deleted (trace s') ++ KLatest.latest_records (self s') = offers.
Proof.
  destruct (klatest_run offers w) as (w' & tr & Hrun & Hsaved & Hdel).
  exists o. eexists. split; [reflexivity|]. split; [exact Hrun|].
  split; [intros rest; now rewrite klatest_offer_all_app, Hrun|].
  simpl. rewrite Hsaved, Hdel, length_last_k, last_k_before_last_k.
  repeat split.
Qed.

End LatestK.

Lemma fs_save_never_raises : never_raises fs_save.
Proof. intros p w. reflexivity. Qed.

Lemma fs_discard_never_raises : never_raises fs_discard.
Proof. intros p w. reflexivity. Qed.

Lemma latest_k_correct_witness :
  exists s',
    klatest_offer_all ["x"; "y"; "z"; "w"]
      (start (fs_klatest 3 fs_discard []) [])
    = (Ret tt, s') /\
    KLatest.latest_records (self s') = ["y"; "z"; "w"] /\
    saved (trace s') = ["x"; "y"; "z"; "w"] /\
    deleted (trace s') = ["x"].
Proof.
  assert (HK : 1 <= 3) by lia.
  destruct (latest_k_correct 3 fs_save fs_discard HK
              fs_save_never_raises fs_discard_never_raises
              ["x"; "y"; "z"; "w"] [])
    as (o' & s' & Hinit & Hrun & _ & Hrec & _ & Hsaved & Hdel & _).
  injection Hinit as <-.
  exists s'. split; [exact Hrun|]. split; [exact Hrec|].
  split; [exact Hsaved | exact Hdel].
Defined.

(** ** The unbounded sentinel *)

Lemma dict_keys_setitem_same (d : Dict.t) (k : string) (v : Q) :
  In k (Dict.keys (Dict.setitem d k v)).
Proof. apply dict_get_in_keys. rewrite dict_get_setitem_same. discriminate. Qed.

Lemma dict_keys_setitem_mono (d : Dict.t) (k x : string) (v : Q) :
  In x (Dict.keys d) -> In x (Dict.keys (Dict.setitem d k v)).
Proof.
  intros H. rewrite dict_keys_setitem.
  destruct (existsb (String.eqb k) (Dict.keys d)); [exact H|].
  apply in_or_app. now left.
Qed.

Lemma set_all_keys (offers : list (Q * string)) (d : Dict.t) (p : string) :
  In p (Dict.keys d) \/ In p (map snd offers) ->
  In p (Dict.keys (set_all offers d)).
Proof.
  revert d. induction offers as [|[m q] offers IH]; intros d; simpl.
  - tauto.
  - intros [H | [<- | H]]; apply IH.
    + left. now apply dict_keys_setitem_mono.
    + left. apply dict_keys_setitem_same.
    + now right.
Qed.

Section Unbounded.
Context {W : Type}.
Variables (save del : callback W).
Hypothesis save_returns : never_raises save.

Let ob : KBest.t W := KBest.mk [] (Some save) del (-1) true.
Let ol : KLatest.t W := KLatest.mk [] (Some save) del (-1) true.

Lemma kbest_unbounded_run (offers : list (Q * string)) (d : Dict.t) (w : W)
    (tr : list event) :
  exists w',
    kbest_offer_all offers (mkState (KBest.with_best_records ob d) w tr)
    = (Ret tt,
       mkState (KBest.with_best_records ob (set_all offers d)) w'
         (tr ++ map Save (map snd offers))).
Proof.
  revert d w tr. induction offers as [|[m p] offers IH]; intros d w tr.
  - exists w. simpl. now rewrite app_nil_r.
  - simpl. unfold bind.
    set (s := mkState (KBest.with_best_records ob d) w tr).
    assert (Hfull : KBest.full (self s) = false) by reflexivity.
    destruct (never_raises_call save p w save_returns) as [w1 Hf].
    rewrite (kbest_add_accepted _ _ _ (kbest_should_save_free _ m Hfull)).
    rewrite (kbest_update_free_ok s m p save w1 Hfull eq_refl Hf).
    destruct (IH (Dict.setitem d p m) w1 (tr ++ [Save p])) as [w2 Hrun].
    exists w2. rewrite <- app_assoc in Hrun. exact Hrun.
Qed.

Lemma klatest_unbounded_run (offers l : list string) (w : W)
    (tr : list event) :
  exists w',
    klatest_offer_all offers (mkState (KLatest.with_latest_records ol l) w tr)
    = (Ret tt,
       mkState (KLatest.with_latest_records ol (l ++ offers)) w'
         (tr ++ map Save offers)).
Proof.
  revert l w tr. induction offers as [|p offers IH]; intros l w tr.
  - exists w. simpl. now rewrite !app_nil_r.
  - simpl. unfold bind.
    set (s := mkState (KLatest.with_latest_records ol l) w tr).
    assert (Hfull : KLatest.full (self s) = false) by reflexivity.
    destruct (never_raises_call save p w save_returns) as [w1 Hf].
    rewrite (klatest_add_free_ok s p save w1 Hfull eq_refl Hf).
    destruct (IH (l ++ [p]) w1 (tr ++ [Save p])) as [w2 Hrun].
    exists w2. rewrite <- !app_assoc in Hrun. exact Hrun.
Qed.

Lemma saved_map_Save (l : list string) : saved (map Save l) = l.
Proof. induction l as [|x l IH]; simpl; [|rewrite IH]; reflexivity. Qed.

Lemma deleted_map_Save (l : list string) : deleted (map Save l) = [].
Proof. induction l as [|x l IH]; simpl; auto. Qed.

(** C7.  For a retainer of either class constructed with [max_size = -1]
    and a save callback that returns normally, every offer of any sequence
    is accepted: the run returns normally, [save_fn] has been invoked on
    every offered identifier, every offered identifier is retained
    ([KBest] holds each under its latest score, [KLatest] holds the whole
    sequence), [del_fn] has never been invoked, and the retainer is not
    full afterwards. *)
Theorem unbounded_keeps_everything (offers : list (Q * string))
    (paths : list string) (w : W) :
  (exists o s',
      KBest.__init__ (-1) (Some save) del = Ret o /\
      kbest_offer_all offers (start o w) = (Ret tt, s') /\
      (forall d metric,
          KBest.should_save (KBest.with_best_records o d) metric = Ret true) /\
      KBest.best_records (self s') = set_all offers [] /\
      (forall p, In p (map snd offers) ->
                 In p (Dict.keys (KBest.best_records (self s')))) /\
      saved (trace s') = map snd offers /\
      deleted (trace s') = [] /\
      KBest.full (self s') = false) /\
  (exists o s',
      KLatest.__init__ (-1) (Some save) del = Ret o /\
      klatest_offer_all paths (start o w) = (Ret tt, s') /\
      KLatest.latest_records (self s') = paths /\
      saved (trace s') = paths /\
      deleted (trace s') = [] /\
      KLatest.full (self s') = false).
Proof.
  split.
  - destruct (kbest_unbounded_run offers [] w []) as [w' Hrun].
    exists ob. eexists. split; [reflexivity|]. split; [exact Hrun|].
    simpl. rewrite saved_map_Save, deleted_map_Save.
    repeat split. intros p Hp. apply set_all_keys. now right.
  - destruct (klatest_unbounded_run paths [] w []) as [w' Hrun].
    exists ol. eexists. split; [reflexivity|]. split; [exact Hrun|].
    simpl. rewrite saved_map_Save, deleted_map_Save. repeat split.
Qed.

End Unbounded.

Lemma unbounded_keeps_everything_witness :
  (exists s',
      kbest_offer_all [(5 # 10, "a"); (7 # 10, "b"); (9 # 10, "c")]
        (start (fs_kbest (-1) failing_remove []) [])
      = (Ret tt, s') /\
      KBest.best_records (self s')
      = [("a", 5 # 10); ("b", 7 # 10); ("c", 9 # 10)] /\
      deleted (trace s') = []) /\
  (exists s',
      klatest_offer_all ["x"; "y"; "z"; "w"]
        (start (fs_klatest (-1) failing_remove []) [])
      = (Ret tt, s') /\
      KLatest.latest_records (self s') = ["x"; "y"; "z"; "w"] /\
      deleted (trace s') = []).
Proof.
  destruct (unbounded_keeps_everything fs_save failing_remove
              fs_save_never_raises
              [(5 # 10, "a"); (7 # 10, "b"); (9 # 10, "c")]
              ["x"; "y"; "z"; "w"] [])
    as [(o & s' & Hinit & Hrun & _ & Hrec & _ & _ & Hdel & _)
        (o' & s'' & Hinit' & Hrun' & Hrec' & _ & Hdel' & _)].
  injection Hinit as <-. injection Hinit' as <-.
  split.
  - exists s'. split; [exact Hrun|]. split; [exact Hrec | exact Hdel].
  - exists s''. split; [exact Hrun'|]. split; [exact Hrec' | exact Hdel'].
Defined.

(** ** Best-K against the reference simulation *)

Lemma Qltb_compat (a b c : Q) : (b == c)%Q -> Qltb a b = Qltb a c.
Proof. intros H. unfold Qltb. now rewrite H. Qed.

Lemma Qmax_of_gt (a b : Q) : Qgtb b a = true -> Qmax a b = b.
Proof.
  intros H. apply Qgtb_gt in H. unfold Qmax, GenericMinMax.gmax.
  destruct (a ?= b)%Q eqn:E; try reflexivity.
  - apply Qeq_alt in E. lra.
  - apply Qgt_alt in E. lra.
Qed.

Lemma Qmax_of_le (a b : Q) : Qgtb b a = false -> Qmax a b = a.
Proof.
  intros H. apply Qgtb_le in H. unfold Qmax, GenericMinMax.gmax.
  destruct (a ?= b)%Q eqn:E; try reflexivity.
  apply Qlt_alt in E. lra.
Qed.

Lemma find_app_found {A : Type} (f : A -> bool) (l1 l2 : list A) (x : A) :
  find f l1 = Some x -> find f (l1 ++ l2) = Some x.
Proof.
  induction l1 as [|a l1 IH]; simpl; [discriminate|].
  destruct (f a); auto.
Qed.

Lemma find_app_not_found {A : Type} (f : A -> bool) (l1 l2 : list A) :
  (forall x, In x l1 -> f x = false) -> find f (l1 ++ l2) = find f l2.
Proof.
  induction l1 as [|a l1 IH]; simpl; [reflexivity|].
  intros H. rewrite (H a) by auto. apply IH. auto.
Qed.

(** The loop of [max] ends on the first entry that carries the greatest
    value: the entry that the reference looks up by its score. *)
Lemma dict_max_loop_find (it pre : Dict.t) (kc : string) (vc : Q) :
  (forall x, In x pre -> (snd x <= vc)%Q) ->
  find (fun e => Qeq_bool (snd e) vc) pre = Some (kc, vc) ->
  exists v,
    find (fun e => Qeq_bool (snd e) (fold_left Qmax (map snd it) vc))
      (pre ++ it)
    = Some (Dict.max_loop kc vc it, v).
Proof.
  revert pre kc vc.
  induction it as [|[k v] it IH]; intros pre kc vc Hle Hfind; simpl.
  - exists vc. now rewrite app_nil_r.
  - replace (pre ++ (k, v) :: it) with ((pre ++ [(k, v)]) ++ it)
      by now rewrite <- app_assoc.
    destruct (Qgtb v vc) eqn:Hgt.
    + rewrite (Qmax_of_gt _ _ Hgt). apply Qgtb_gt in Hgt. apply IH.
      * intros x [Hx|[<-|[]]]%in_app_or; simpl; [|lra].
        specialize (Hle x Hx). lra.
      * rewrite find_app_not_found.
        -- simpl. now rewrite Qeq_bool_refl.
        -- intros x Hx. specialize (Hle x Hx).
           destruct (Qeq_bool (snd x) v) eqn:E; [|reflexivity].
           apply Qeq_bool_eq in E. lra.
    + rewrite (Qmax_of_le _ _ Hgt). apply Qgtb_le in Hgt. apply IH.
      * intros x [Hx|[<-|[]]]%in_app_or; simpl; auto.
      * now apply find_app_found.
Qed.

Lemma dict_get_of_in (d : Dict.t) (k : string) (v : Q) :
  NoDup (Dict.keys d) -> In (k, v) d -> Dict.get d k = Some v.
Proof.
  induction d as [|[k' v'] d IH]; simpl; [tauto|].
  intros Hnd Hin. inversion Hnd as [|? ? Hnotin Hnd']; subst.
  destruct Hin as [[= -> ->]|Hin].
  - now rewrite String.eqb_refl.
  - destruct (String.eqb_spec k' k) as [->|Hne]; [|auto].
    exfalso. apply Hnotin. change k with (fst (k, v)). now apply in_map.
Qed.

(** On a dictionary with unique keys, the key found by [max] is the
    reference's worst identifier, and the value stored under it is the
    reference's worst score. *)
Lemma reference_worst_agrees (d : Dict.t) (k : string) :
  NoDup (Dict.keys d) ->
  Dict.max_by_value d = Ret k ->
  exists wm w,
    Dict.get d k = Some wm /\
    Reference.worst_score d = Some w /\
    (wm == w)%Q /\
    Reference.worst_id d = Some k.
Proof.
  intros Hnd Hmax. destruct d as [|[k0 v0] it]; [discriminate|].
  simpl in Hmax. injection Hmax as <-.
  destruct (dict_max_loop_find it [(k0, v0)] k0 v0) as [v Hfind].
  - intros x [<-|[]]. simpl. lra.
  - simpl. now rewrite Qeq_bool_refl.
  - change ([(k0, v0)] ++ it) with ((k0, v0) :: it) in Hfind.
    destruct (find_some _ _ Hfind) as [Hin Heq]. simpl in Heq.
    exists v, (fold_left Qmax (map snd it) v0).
    split; [now apply dict_get_of_in|]. split; [reflexivity|].
    split; [now apply Qeq_bool_eq|].
    unfold Reference.worst_id.
    cbn [Reference.worst_score]. now rewrite Hfind.
Qed.

Lemma reference_offer_inv (K : Z) (d : Dict.t) (o : Q * string) :
  NoDup (Dict.keys d) ->
  Dict.len d <= K ->
  NoDup (Dict.keys (Reference.offer K d o)) /\
  Dict.len (Reference.offer K d o) <= K.
Proof.
  intros Hnd Hlen. destruct o as [score id]. unfold Reference.offer.
  destruct (Reference.accepts K d score); [|now split].
  unfold Reference.has_free_capacity, Dict.len in *.
  destruct (Z.ltb_spec (Z.of_nat (List.length d)) K) as [Hfree|Hcap].
  - split; [now apply dict_nodup_setitem|].
    pose proof (dict_length_setitem_le d id score). lia.
  - destruct (Reference.worst_id d) as [k|] eqn:Hk; [|now split].
    split; [now apply dict_nodup_setitem, dict_nodup_remove|].
    unfold Reference.worst_id in Hk.
    destruct (Reference.worst_score d) as [w|]; [|discriminate].
    destruct (find _ d) as [[k' v]|] eqn:Hfind; [|discriminate].
    simpl in Hk. injection Hk as ->.
    apply find_some in Hfind as [Hin _].
    pose proof (dict_length_remove d k v (dict_get_of_in d k v Hnd Hin)).
    pose proof (dict_length_setitem_le (Dict.remove d k) id score). lia.
Qed.

Section BestK.
Context {W : Type}.
Variables (K : Z) (save del : callback W).
Hypothesis K_pos : 1 <= K.
Hypothesis save_returns : never_raises save.
Hypothesis del_returns : never_raises del.

Let o : KBest.t W := KBest.mk [] (Some save) del K (K =? -1).

(** One offer of the code against one offer of the reference. *)
Lemma kbest_offer_refines (d : Dict.t) (w : W) (tr : list event)
    (metric : Q) (path : string) :
  NoDup (Dict.keys d) ->
  Dict.len d <= K ->
  exists w' tr',
    KBest.add_checkpoint metric path
      (mkState (KBest.with_best_records o d) w tr)
    = (Ret tt,
       mkState
         (KBest.with_best_records o (Reference.offer K d (metric, path)))
         w' tr').
Proof.
  intros Hnd Hlen.
  set (s := mkState (KBest.with_best_records o d) w tr).
  assert (Hflag : (K =? -1) = false) by (apply Z.eqb_neq; lia).
  unfold Reference.offer, Reference.accepts, Reference.has_free_capacity.
  destruct (Z.ltb_spec (Dict.len d) K) as [Hfree|Hcap]; simpl.
  - assert (Hfull : KBest.full (self s) = false).
    { unfold KBest.full. simpl. rewrite Hflag. simpl. apply Z.eqb_neq. lia. }
    destruct (never_raises_call save path w save_returns) as [w1 Hf].
    rewrite (kbest_add_accepted _ _ _
               (kbest_should_save_free _ metric Hfull)).
    rewrite (kbest_update_free_ok s metric path save w1 Hfull eq_refl Hf).
    now exists w1, (tr ++ [Save path]).
  - assert (Hfull : KBest.full (self s) = true).
    { unfold KBest.full. simpl. rewrite Hflag. simpl. apply Z.eqb_eq. lia. }
    destruct (Dict.max_by_value d) as [k|e] eqn:Hmax.
    + destruct (reference_worst_agrees d k Hnd Hmax)
        as (wm & wref & Hget & Hscore & Heq & Hid).
      rewrite Hscore, Hid, <- (Qltb_compat metric wm wref Heq).
      assert (Hs := kbest_should_save_full (self s) metric k wm
                      Hfull Hmax Hget).
      destruct (Qltb metric wm).
      * destruct (never_raises_call del k w del_returns) as [w1 Hd].
        destruct (never_raises_call save path w1 save_returns) as [w2 Hf].
        rewrite (kbest_add_accepted _ _ _ Hs).
        rewrite (kbest_update_full_ok s metric path k w1 save w2
                   Hfull Hmax Hd eq_refl Hf).
        now exists w2, (tr ++ [Delete k; Save path]).
      * rewrite (kbest_add_rejected _ _ _ Hs). now exists w, tr.
    + apply dict_max_by_value_raise in Hmax as [-> _].
      unfold Dict.len in Hcap. simpl in Hcap. lia.
Qed.

Lemma kbest_run_refines (offers : list (Q * string)) (d : Dict.t) (w : W)
    (tr : list event) :
  NoDup (Dict.keys d) ->
  Dict.len d <= K ->
  exists w' tr',
    kbest_offer_all offers (mkState (KBest.with_best_records o d) w tr)
    = (Ret tt,
       mkState
         (KBest.with_best_records o (fold_left (Reference.offer K) offers d))
         w' tr').
Proof.
  revert d w tr.
  induction offers as [|[metric path] offers IH]; intros d w tr Hnd Hlen.
  - now exists w, tr.
  - destruct (kbest_offer_refines d w tr metric path Hnd Hlen)
      as (w1 & tr1 & Hstep).
    destruct (reference_offer_inv K d (metric, path) Hnd Hlen)
      as [Hnd' Hlen'].
    destruct (IH _ w1 tr1 Hnd' Hlen') as (w2 & tr2 & Hrun).
    exists w2, tr2. simpl. unfold bind. rewrite Hstep. exact Hrun.
Qed.

(** C1.  For a [KBest] retainer with capacity [K >= 1] whose callbacks
    return normally, and every sequence of (score, identifier) offers: the
    run returns normally and the final retained mapping equals, entry by
    entry and in the same order, the result of the reference simulation,
    which accepts an offer iff there is free capacity or the score is
    strictly lower than the worst retained score, and on acceptance at
    capacity evicts the worst-scoring retained identifier before inserting
    the new pair. *)
Theorem best_k_matches_reference (offers : list (Q * string)) (w : W) :
  exists o' s',
    KBest.__init__ K (Some save) del = Ret o' /\
    kbest_offer_all offers (start o' w) = (Ret tt, s') /\
    KBest.best_records (self s') = Reference.simulate K offers.
Proof.
  destruct (kbest_run_refines offers [] w []) as (w' & tr' & Hrun).
  - constructor.
  - unfold Dict.len. simpl. lia.
  - exists o. eexists. split; [reflexivity|]. split; [exact Hrun|].
    reflexivity.
Qed.

End BestK.

Lemma best_k_matches_reference_witness :
  exists s',
    kbest_offer_all
      [(5 # 10, "a"); (3 # 10, "b"); (7 # 10, "c"); (1 # 10, "d")]
      (start (fs_kbest 2 fs_discard []) [])
    = (Ret tt, s') /\
    KBest.best_records (self s') = [("b", 3 # 10); ("d", 1 # 10)].
Proof.
  assert (HK : 1 <= 2) by lia.
  destruct (best_k_matches_reference 2 fs_save fs_discard HK
              fs_save_never_raises fs_discard_never_raises
              [(5 # 10, "a"); (3 # 10, "b"); (7 # 10, "c"); (1 # 10, "d")] [])
    as (o' & s' & Hinit & Hrun & Hrec).
  injection Hinit as <-.
  exists s'. split; [exact Hrun|]. rewrite Hrec. reflexivity.
Defined.

(** The reference simulation on the two Best-K scenarios of the
    specification. *)
Lemma reference_scenario_rejects_worse :
  Reference.simulate 2 [(5 # 10, "a"); (3 # 10, "b"); (7 # 10, "c")]
  = [("a", 5 # 10); ("b", 3 # 10)].
Proof. reflexivity. Qed.

Lemma reference_scenario_evicts_worst :
  Reference.simulate 2 [(5 # 10, "a"); (3 # 10, "b"); (1 # 10, "c")]
  = [("b", 3 # 10); ("c", 1 # 10)].
Proof. reflexivity. Qed.

(** * Further properties of the retainers *)

(** ** The worst entry *)

(** The running maximum sits in the part already visited, after strictly
    smaller values and before values that are not greater. *)
Lemma dict_max_loop_split (it pre post : Dict.t) (kc : string) (vc : Q) :
  (forall x, In x pre -> (snd x < vc)%Q) ->
  (forall x, In x post -> (snd x <= vc)%Q) ->
  exists v pre' post',
    pre ++ (kc, vc) :: post ++ it
    = pre' ++ (Dict.max_loop kc vc it, v) :: post' /\
    (forall x, In x pre' -> (snd x < v)%Q) /\
    (forall x, In x post' -> (snd x <= v)%Q).
Proof.
  revert pre post kc vc.
  induction it as [|[k v] it IH]; intros pre post kc vc Hpre Hpost; simpl.
  - exists vc, pre, post. now rewrite app_nil_r.
  - destruct (Qgtb v vc) eqn:Hgt.
    + apply Qgtb_gt in Hgt.
      destruct (IH (pre ++ (kc, vc) :: post) [] k v)
        as (v' & pre' & post' & E & H1 & H2).
      * intros x [Hx|[<-|Hx]]%in_app_or; simpl.
        -- specialize (Hpre x Hx). lra.
        -- exact Hgt.
        -- specialize (Hpost x Hx). lra.
      * intros x [].
      * exists v', pre', post'. split; [|now split].
        rewrite <- E. simpl. now rewrite <- app_assoc.
    + apply Qgtb_le in Hgt.
      destruct (IH pre (post ++ [(k, v)]) kc vc)
        as (v' & pre' & post' & E & H1 & H2).
      * exact Hpre.
      * intros x [Hx|[<-|[]]]%in_app_or; simpl; auto.
      * exists v', pre', post'. split; [|now split].
        rewrite <- E. now rewrite <- app_assoc.
Qed.

Lemma dict_max_by_value_split (d : Dict.t) (k : string) :
  Dict.max_by_value d = Ret k ->
  exists v pre post,
    d = pre ++ (k, v) :: post /\
    (forall x, In x pre -> (snd x < v)%Q) /\
    (forall x, In x post -> (snd x <= v)%Q).
Proof.
  destruct d as [|[k0 v0] it]; simpl; [discriminate|]. intros [= <-].
  destruct (dict_max_loop_split it [] [] k0 v0)
    as (v & pre & post & E & H1 & H2).
  - intros x [].
  - intros x [].
  - exists v, pre, post. now split.
Qed.

(** X1.  [max(d, key=d.get)] raises [ValueError] exactly on the empty
    dictionary; otherwise it returns the key of the first entry that
    carries the greatest value: every entry before it has a strictly
    smaller value and no entry after it has a greater one. *)
Theorem max_by_value_first_maximal (d : Dict.t) :
  match Dict.max_by_value d with
  | Raise e => d = [] /\ e = ValueError
  | Ret k =>
      exists v pre post,
        d = pre ++ (k, v) :: post /\
        (forall x, In x pre -> (snd x < v)%Q) /\
        (forall x, In x post -> (snd x <= v)%Q)
  end.
Proof.
  destruct (Dict.max_by_value d) as [k|e] eqn:Hmax.
  - now apply dict_max_by_value_split.
  - now apply dict_max_by_value_raise.
Qed.

(** On unique keys the value stored under the key that [max] returns is
    an upper bound of all stored values. *)
Lemma dict_max_by_value_upper (d : Dict.t) (k : string) :
  NoDup (Dict.keys d) ->
  Dict.max_by_value d = Ret k ->
  exists wm,
    Dict.get d k = Some wm /\ In (k, wm) d /\
    forall q v, In (q, v) d -> (v <= wm)%Q.
Proof.
  intros Hnd Hmax.
  destruct (dict_max_by_value_split d k Hmax) as (v & pre & post & E & H1 & H2).
  assert (Hin : In (k, v) d) by (rewrite E; apply in_elt).
  exists v. split; [now apply dict_get_of_in|]. split; [exact Hin|].
  intros q u Hq. rewrite E in Hq.
  apply in_app_or in Hq as [Hq|[[= <- <-]|Hq]].
  - specialize (H1 _ Hq). simpl in H1. lra.
  - lra.
  - exact (H2 _ Hq).
Qed.

(** ** Every outcome of one offer *)

Lemma dict_remove_incl (d : Dict.t) (k : string) : incl (Dict.remove d k) d.
Proof.
  induction d as [|[k' v] d IH]; simpl; [apply incl_refl|].
  destruct (String.eqb k' k).
  - apply incl_tl, incl_refl.
  - intros x [<-|Hx]; [now left | right; now apply IH].
Qed.

Section Outcomes.
Context {W : Type}.

Lemma state_eta {O : Type} (s : state W O) :
  mkState (self s) (world s) (trace s ++ []) = s.
Proof. destruct s. simpl. now rewrite app_nil_r. Qed.

(** The result, the dictionary and the callbacks invoked, for each way an
    offer to a [KBest] can go. *)
Lemma kbest_offer_outcome (s : state W (KBest.t W)) metric path :
  exists d' w' evs,
    snd (KBest.add_checkpoint metric path s)
    = mkState (KBest.with_best_records (self s) d') w' (trace s ++ evs) /\
    ((fst (KBest.add_checkpoint metric path s) = Ret tt /\
      KBest.should_save (self s) metric = Ret false /\
      d' = KBest.best_records (self s) /\ evs = [] /\ w' = world s)
     \/ (exists e,
            fst (KBest.add_checkpoint metric path s) = Raise e /\
            d' = KBest.best_records (self s) /\
            (evs = [] /\ w' = world s \/ evs = [Save path]))
     \/ (fst (KBest.add_checkpoint metric path s) = Ret tt /\
         KBest.full (self s) = false /\
         d' = Dict.setitem (KBest.best_records (self s)) path metric /\
         evs = [Save path])
     \/ (exists k e,
            KBest.full (self s) = true /\
            KBest.should_save (self s) metric = Ret true /\
            Dict.max_by_value (KBest.best_records (self s)) = Ret k /\
            fst (KBest.add_checkpoint metric path s) = Raise e /\
            d' = Dict.remove (KBest.best_records (self s)) k /\
            (evs = [Delete k] \/ evs = [Delete k; Save path]))
     \/ (exists k,
            KBest.full (self s) = true /\
            KBest.should_save (self s) metric = Ret true /\
            Dict.max_by_value (KBest.best_records (self s)) = Ret k /\
            fst (KBest.add_checkpoint metric path s) = Ret tt /\
            d' = Dict.setitem
                   (Dict.remove (KBest.best_records (self s)) k) path metric /\
            evs = [Delete k; Save path])).
Proof.
  assert (Hsame : forall r,
             KBest.add_checkpoint metric path s = (r, s) ->
             snd (KBest.add_checkpoint metric path s)
             = mkState
                 (KBest.with_best_records (self s)
                    (KBest.best_records (self s)))
                 (world s) (trace s ++ [])).
  { intros r ->. simpl.
    now rewrite kbest_with_best_records_id, state_eta. }
  destruct (KBest.full (self s)) eqn:Hfull.
  - destruct (Dict.max_by_value (KBest.best_records (self s)))
      as [k|e] eqn:Hmax.
    + destruct (dict_max_by_value_get _ _ Hmax) as [wm Hget].
      assert (Hs := kbest_should_save_full _ metric _ _ Hfull Hmax Hget).
      destruct (Qltb metric wm).
      * rewrite (kbest_add_accepted _ _ _ Hs).
        destruct (KBest.del_fn (self s) k (world s)) as [[e|] w1] eqn:Hdel.
        { rewrite (kbest_update_full_del_raises _ _ _ _ _ _ Hfull Hmax Hdel).
          do 3 eexists. split; [reflexivity|].
          do 3 right. left. exists k, e. auto 10. }
        destruct (KBest.save_fn (self s)) as [f|] eqn:Hsave.
        { destruct (f path w1) as [[e|] w2] eqn:Hf.
          - rewrite (kbest_update_full_save_raises
                       _ _ _ _ _ _ _ _ Hfull Hmax Hdel Hsave Hf).
            do 3 eexists. split; [reflexivity|].
            do 3 right. left. exists k, e. auto 10.
          - rewrite (kbest_update_full_ok
                       _ _ _ _ _ _ _ Hfull Hmax Hdel Hsave Hf).
            do 3 eexists. split; [reflexivity|].
            do 4 right. exists k. auto 10. }
        rewrite (kbest_update_full_no_save_fn
                   _ _ _ _ _ Hfull Hmax Hdel Hsave).
        do 3 eexists. split; [reflexivity|].
        do 3 right. left. exists k, TypeError. auto 10.
      * pose proof (kbest_add_rejected _ _ path Hs) as Hrun.
        do 3 eexists. split; [exact (Hsame _ Hrun)|].
        left. rewrite Hrun. auto.
    + apply dict_max_by_value_raise in Hmax as [Hd ->].
      pose proof (kbest_add_raised _ _ path _
                    (kbest_should_save_empty _ metric Hfull Hd)) as Hrun.
      do 3 eexists. split; [exact (Hsame _ Hrun)|].
      right; left. exists ValueError. rewrite Hrun. auto.
  - rewrite (kbest_add_accepted _ _ _
               (kbest_should_save_free _ metric Hfull)).
    destruct (KBest.save_fn (self s)) as [f|] eqn:Hsave.
    + destruct (f path (world s)) as [[e|] w'] eqn:Hf.
      * rewrite (kbest_update_free_save_raises _ _ _ _ _ _ Hfull Hsave Hf).
        exists (KBest.best_records (self s)), w', [Save path]. simpl.
        rewrite kbest_with_best_records_id. split; [reflexivity|].
        right; left. exists e. auto.
      * rewrite (kbest_update_free_ok _ _ _ _ _ Hfull Hsave Hf).
        do 3 eexists. split; [reflexivity|]. do 2 right. left. auto.
    + pose proof (kbest_update_free_no_save_fn _ metric path Hfull Hsave)
        as Hrun.
      exists (KBest.best_records (self s)), (world s), []. rewrite Hrun. simpl.
      rewrite kbest_with_best_records_id, state_eta. split; [reflexivity|].
      right; left. exists TypeError. auto.
Qed.

(** The same for a [KLatest]. *)
Lemma klatest_offer_outcome (s : state W (KLatest.t W)) path :
  exists l' w' evs,
    snd (KLatest.add_checkpoint path s)
    = mkState (KLatest.with_latest_records (self s) l') w' (trace s ++ evs) /\
    ((exists e,
         fst (KLatest.add_checkpoint path s) = Raise e /\
         l' = KLatest.latest_records (self s) /\
         (evs = [] /\ w' = world s \/ evs = [Save path]))
     \/ (fst (KLatest.add_checkpoint path s) = Ret tt /\
         KLatest.full (self s) = false /\
         l' = KLatest.latest_records (self s) ++ [path] /\
         evs = [Save path])
     \/ (exists x l e,
            KLatest.full (self s) = true /\
            KLatest.latest_records (self s) = x :: l /\
            fst (KLatest.add_checkpoint path s) = Raise e /\
            l' = l /\
            (evs = [Delete x] \/ evs = [Delete x; Save path]))
     \/ (exists x l,
            KLatest.full (self s) = true /\
            KLatest.latest_records (self s) = x :: l /\
            fst (KLatest.add_checkpoint path s) = Ret tt /\
            l' = l ++ [path] /\
            evs = [Delete x; Save path])).
Proof.
  destruct (KLatest.full (self s)) eqn:Hfull.
  - destruct (KLatest.latest_records (self s)) as [|x l] eqn:Hl.
    + rewrite (klatest_add_full_empty _ _ Hfull Hl).
      exists [], (world s), []. simpl. rewrite <- Hl.
      rewrite klatest_with_latest_records_id, state_eta.
      split; [reflexivity|]. left. exists IndexError. auto.
    + destruct (KLatest.del_fn (self s) x (world s)) as [[e|] w1] eqn:Hdel.
      { rewrite (klatest_add_full_del_raises _ _ _ _ _ _ Hfull Hl Hdel).
        do 3 eexists. split; [reflexivity|].
        do 2 right. left. exists x, l, e. auto 10. }
      destruct (KLatest.save_fn (self s)) as [f|] eqn:Hsave.
      { destruct (f path w1) as [[e|] w2] eqn:Hf.
        - rewrite (klatest_add_full_save_raises
                     _ _ _ _ _ _ _ _ Hfull Hl Hdel Hsave Hf).
          do 3 eexists. split; [reflexivity|].
          do 2 right. left. exists x, l, e. auto 10.
        - rewrite (klatest_add_full_ok
                     _ _ _ _ _ _ _ Hfull Hl Hdel Hsave Hf).
          do 3 eexists. split; [reflexivity|].
          do 3 right. exists x, l. auto 10. }
      rewrite (klatest_add_full_no_save_fn _ _ _ _ _ Hfull Hl Hdel Hsave).
      do 3 eexists. split; [reflexivity|].
      do 2 right. left. exists x, l, TypeError. auto 10.
  - destruct (KLatest.save_fn (self s)) as [f|] eqn:Hsave.
    + destruct (f path (world s)) as [[e|] w'] eqn:Hf.
      * rewrite (klatest_add_free_save_raises _ _ _ _ _ Hfull Hsave Hf).
        exists (KLatest.latest_records (self s)), w', [Save path]. simpl.
        rewrite klatest_with_latest_records_id. split; [reflexivity|].
        left. exists e. auto.
      * rewrite (klatest_add_free_ok _ _ _ _ Hfull Hsave Hf).
        do 3 eexists. split; [reflexivity|]. right. left. auto.
    + rewrite (klatest_add_free_no_save_fn _ _ Hfull Hsave).
      exists (KLatest.latest_records (self s)), (world s), []. simpl.
      rewrite klatest_with_latest_records_id, state_eta.
      split; [reflexivity|]. left. exists TypeError. auto.
Qed.

End Outcomes.

(** ** What [should_save] decides *)

Section ShouldSave.
Context {W : Type}.

(** X2.  On a retainer whose mapping has unique keys, [should_save]
    answers true exactly when the retainer is not full or some retained
    checkpoint has a score strictly greater than the offered one; with a
    full and empty mapping (capacity zero) it raises instead. *)
Theorem should_save_meaning (o : KBest.t W) (metric : Q) :
  NoDup (Dict.keys (KBest.best_records o)) ->
  (KBest.should_save o metric = Ret true <->
   KBest.full o = false \/
   exists k v, In (k, v) (KBest.best_records o) /\ (metric < v)%Q) /\
  (KBest.should_save o metric = Raise ValueError <->
   KBest.full o = true /\ KBest.best_records o = []).
Proof.
  intros Hnd. destruct (KBest.full o) eqn:Hfull.
  - destruct (Dict.max_by_value (KBest.best_records o)) as [k|e] eqn:Hmax.
    + destruct (dict_max_by_value_upper _ _ Hnd Hmax) as (wm & Hget & Hin & Hub).
      rewrite (kbest_should_save_full o metric k wm Hfull Hmax Hget).
      split; split.
      * intros [= Hlt]. right. exists k, wm. split; [exact Hin|].
        now apply Qltb_lt.
      * intros [Hf|(q & v & Hq & Hlt)]; [discriminate|].
        f_equal. apply Qltb_lt. specialize (Hub q v Hq). lra.
      * discriminate.
      * intros [_ Hd]. rewrite Hd in Hin. destruct Hin.
    + apply dict_max_by_value_raise in Hmax as [Hd _].
      rewrite (kbest_should_save_empty o metric Hfull Hd).
      split; split; try discriminate; auto.
      intros [Hf|(q & v & Hq & _)]; [discriminate|].
      rewrite Hd in Hq. destruct Hq.
  - rewrite (kbest_should_save_free o metric Hfull).
    split; split; try discriminate; auto.
    intros [Hf _]. discriminate.
Qed.

End ShouldSave.

Lemma should_save_meaning_witness :
  KBest.should_save
    (fs_kbest 2 fs_remove [("a", 5 # 10); ("b", 3 # 10)]) (4 # 10)
  = Ret true.
Proof.
  apply (proj1 (should_save_meaning
                  (fs_kbest 2 fs_remove [("a", 5 # 10); ("b", 3 # 10)])
                  (4 # 10)
                  ltac:(simpl; repeat constructor; simpl;
                        intuition discriminate))).
  right. exists "a", (5 # 10). split; [simpl; auto | reflexivity].
Defined.

(** ** Offers that fail, offers that succeed *)

Section FailAndSucceed.
Context {W : Type}.

(** X3.  An offer that raises, for whatever reason (a failing callback, a
    missing [save_fn], an empty full retainer), inserts nothing and
    changes no score: every entry tracked afterwards was tracked before.
    This holds for [KBest] and for [KLatest]. *)
Theorem failed_offer_inserts_nothing :
  (forall (s : state W (KBest.t W)) metric path e,
      fst (KBest.add_checkpoint metric path s) = Raise e ->
      incl (KBest.best_records
              (self (snd (KBest.add_checkpoint metric path s))))
           (KBest.best_records (self s))) /\
  (forall (s : state W (KLatest.t W)) path e,
      fst (KLatest.add_checkpoint path s) = Raise e ->
      incl (KLatest.latest_records
              (self (snd (KLatest.add_checkpoint path s))))
           (KLatest.latest_records (self s))).
Proof.
  split.
  - intros s metric path e Hraise.
    destruct (kbest_offer_outcome s metric path)
      as (d' & w' & evs & -> & H). simpl.
    destruct H as [(Hr & _) | [(e' & _ & -> & _) | [(Hr & _) |
                   [(k & e' & _ & _ & _ & _ & -> & _) | (k & _ & _ & _ & Hr & _)]]]];
      try congruence.
    apply dict_remove_incl.
  - intros s path e Hraise.
    destruct (klatest_offer_outcome s path) as (l' & w' & evs & -> & H).
    simpl.
    destruct H as [(e' & _ & -> & _) | [(Hr & _) |
                   [(x & l & e' & _ & Hl & _ & -> & _) | (x & l & _ & _ & Hr & _)]]];
      try congruence.
    rewrite Hl. apply incl_tl, incl_refl.
Qed.

(** X4.  An offer to a [KBest] that was accepted and returned normally
    has invoked [save_fn] on the identifier as its last callback and
    leaves [best_records[path] == metric]; an offer to a [KLatest] that
    returned normally leaves the identifier at the end of
    [latest_records]. *)
Theorem successful_offer_is_recorded :
  (forall (s : state W (KBest.t W)) metric path,
      KBest.should_save (self s) metric = Ret true ->
      fst (KBest.add_checkpoint metric path s) = Ret tt ->
      Dict.get
        (KBest.best_records
           (self (snd (KBest.add_checkpoint metric path s)))) path
      = Some metric /\
      exists tr,
        trace (snd (KBest.add_checkpoint metric path s))
        = tr ++ [Save path]) /\
  (forall (s : state W (KLatest.t W)) path,
      fst (KLatest.add_checkpoint path s) = Ret tt ->
      (exists l,
          KLatest.latest_records
            (self (snd (KLatest.add_checkpoint path s))) = l ++ [path]) /\
      exists tr,
        trace (snd (KLatest.add_checkpoint path s)) = tr ++ [Save path]).
Proof.
  split.
  - intros s metric path Hshould Hret.
    destruct (kbest_offer_outcome s metric path)
      as (d' & w' & evs & -> & H). simpl.
    destruct H as [(_ & Hs & _) | [(e' & Hr & _) | [(_ & _ & -> & ->) |
                   [(k & e' & _ & _ & _ & Hr & _) | (k & _ & _ & _ & _ & -> & ->)]]]];
      try congruence.
    + split; [apply dict_get_setitem_same | now exists (trace s)].
    + split; [apply dict_get_setitem_same|].
      exists (trace s ++ [Delete k]). now rewrite <- app_assoc.
  - intros s path Hret.
    destruct (klatest_offer_outcome s path) as (l' & w' & evs & -> & H).
    simpl.
    destruct H as [(e' & Hr & _) | [(_ & _ & -> & ->) |
                   [(x & l & e' & _ & _ & Hr & _) | (x & l & _ & _ & _ & -> & ->)]]];
      try congruence.
    + split; [now eexists | now exists (trace s)].
    + split; [now eexists|].
      exists (trace s ++ [Delete x]). now rewrite <- app_assoc.
Qed.

End FailAndSucceed.

Lemma failed_offer_inserts_nothing_witness :
  incl
    (KBest.best_records
       (self
          (snd
             (KBest.add_checkpoint (3 # 10) "c"
                (mkState
                   (KBest.mk [("a", 1 # 2); ("b", 2 # 5)] None fs_remove 2
                      false)
                   ["b"; "a"] [])))))
    [("a", 1 # 2); ("b", 2 # 5)] /\
  incl
    (KLatest.latest_records
       (self
          (snd
             (KLatest.add_checkpoint "c"
                (mkState (fs_klatest 2 failing_remove ["a"; "b"])
                   ["b"; "a"] [])))))
    ["a"; "b"].
Proof.
  destruct (failed_offer_inserts_nothing (W := list string)) as [HB HL].
  split.
  - exact (HB (mkState
                 (KBest.mk [("a", 1 # 2); ("b", 2 # 5)] None fs_remove 2 false)
                 ["b"; "a"] [])
              (3 # 10) "c" TypeError eq_refl).
  - exact (HL (mkState (fs_klatest 2 failing_remove ["a"; "b"]) ["b"; "a"] [])
              "c" OSError eq_refl).
Defined.

Lemma successful_offer_is_recorded_witness :
  Dict.get
    (KBest.best_records
       (self
          (snd
             (KBest.add_checkpoint (3 # 10) "c"
                (mkState (fs_kbest 2 fs_remove [("a", 1 # 2); ("b", 2 # 5)])
                   ["b"; "a"] []))))) "c"
  = Some (3 # 10) /\
  exists l,
    KLatest.latest_records
      (self
         (snd
            (KLatest.add_checkpoint "c"
               (mkState (fs_klatest 2 fs_remove ["a"; "b"]) ["b"; "a"] []))))
    = l ++ ["c"].
Proof.
  destruct (successful_offer_is_recorded (W := list string)) as [HB HL].
  split.
  - exact (proj1 (HB (mkState
                        (fs_kbest 2 fs_remove [("a", 1 # 2); ("b", 2 # 5)])
                        ["b"; "a"] [])
                     (3 # 10) "c" eq_refl eq_refl)).
  - exact (proj1 (HL (mkState (fs_klatest 2 fs_remove ["a"; "b"])
                        ["b"; "a"] [])
                     "c" eq_refl)).
Defined.

(** ** The K best overall *)

Lemma dict_setitem_absent (d : Dict.t) (k : string) (v : Q) :
  Dict.get d k = None -> Dict.setitem d k v = d ++ [(k, v)].
Proof.
  induction d as [|[k' v'] d IH]; simpl; [reflexivity|].
  destruct (String.eqb k' k); [discriminate|].
  intros H. now rewrite IH.
Qed.

Lemma dict_in_remove (d : Dict.t) (k q : string) (v : Q) :
  NoDup (Dict.keys d) ->
  In (q, v) (Dict.remove d k) <-> In (q, v) d /\ q <> k.
Proof.
  induction d as [|[k' v'] d IH]; simpl; [tauto|].
  intros Hnd. inversion Hnd as [|? ? Hnotin Hnd']; subst.
  destruct (String.eqb_spec k' k) as [->|Hne].
  - split.
    + intros Hin. split; [now right|]. intros ->.
      apply Hnotin. change k with (fst (k, v)). now apply in_map.
    + intros [[[= -> ->]|Hin] Hq]; [contradiction | exact Hin].
  - simpl. rewrite (IH Hnd'). split.
    + intros [[= -> ->]|[Hin Hq]]; auto.
    + intros [[[= -> ->]|Hin] Hq]; auto.
Qed.

Lemma dict_in_keys_entry (d : Dict.t) (k : string) :
  In k (Dict.keys d) -> exists v, In (k, v) d.
Proof.
  unfold Dict.keys. rewrite in_map_iff. intros [[k' v] [<- H]].
  now exists v.
Qed.

(** The reference's offer, by cases, with the worst entry named as the
    code names it. *)
Lemma reference_offer_cases (K : Z) (d : Dict.t) (m : Q) (p : string) :
  1 <= K ->
  NoDup (Dict.keys d) ->
  Dict.len d <= K ->
  (Dict.len d < K /\ Reference.offer K d (m, p) = Dict.setitem d p m) \/
  (Dict.len d = K /\
   exists k wm,
     Dict.max_by_value d = Ret k /\
     Dict.get d k = Some wm /\
     In (k, wm) d /\
     (forall q v, In (q, v) d -> (v <= wm)%Q) /\
     ((m < wm)%Q /\
      Reference.offer K d (m, p) = Dict.setitem (Dict.remove d k) p m
      \/ (wm <= m)%Q /\ Reference.offer K d (m, p) = d)).
Proof.
  intros HK Hnd Hlen.
  unfold Reference.offer, Reference.accepts, Reference.has_free_capacity.
  destruct (Z.ltb_spec (Dict.len d) K) as [Hfree|Hcap]; simpl.
  - now left.
  - right. split; [lia|].
    destruct (Dict.max_by_value d) as [k|e] eqn:Hmax.
    + destruct (reference_worst_agrees d k Hnd Hmax)
        as (wm & wref & Hget & Hscore & Heq & Hid).
      destruct (dict_max_by_value_upper d k Hnd Hmax)
        as (wm' & Hget' & Hin & Hub).
      assert (wm' = wm) by congruence. subst wm'.
      exists k, wm. split; [reflexivity|]. split; [exact Hget|].
      split; [exact Hin|]. split; [exact Hub|].
      rewrite Hscore, Hid, <- (Qltb_compat m wm wref Heq).
      destruct (Qltb m wm) eqn:Hlt.
      * left. split; [now apply Qltb_lt | reflexivity].
      * right. split; [|reflexivity].
        apply Qnot_lt_le. intros H. apply Qltb_lt in H. congruence.
    + apply dict_max_by_value_raise in Hmax as [-> _].
      unfold Dict.len in Hcap. simpl in Hcap. lia.
Qed.

Lemma keep_best_step (K : Z) (d : Dict.t) (seen : list (Q * string))
    (m : Q) (p : string) :
  1 <= K ->
  NoDup (Dict.keys d) ->
  Dict.len d = Z.min (Z.of_nat (List.length seen)) K ->
  (forall k v, In (k, v) d -> In (v, k) seen) ->
  (forall m0 p0, In (m0, p0) seen ->
                 In (p0, m0) d \/
                 Dict.len d = K /\ forall k v, In (k, v) d -> (v <= m0)%Q) ->
  ~ In p (map snd seen) ->
  NoDup (Dict.keys (Reference.offer K d (m, p))) /\
  Dict.len (Reference.offer K d (m, p))
  = Z.min (Z.of_nat (List.length (seen ++ [(m, p)]))) K /\
  (forall k v, In (k, v) (Reference.offer K d (m, p)) ->
               In (v, k) (seen ++ [(m, p)])) /\
  (forall m0 p0, In (m0, p0) (seen ++ [(m, p)]) ->
                 In (p0, m0) (Reference.offer K d (m, p)) \/
                 Dict.len (Reference.offer K d (m, p)) = K /\
                 forall k v, In (k, v) (Reference.offer K d (m, p)) ->
                             (v <= m0)%Q).
Proof.
  intros HK Hnd Hlen Hfrom Hbest Hfresh.
  assert (Hle : Dict.len d <= K) by lia.
  destruct (reference_offer_inv K d (m, p) Hnd Hle) as [Hnd' _].
  split; [exact Hnd'|].
  assert (Habsent : ~ In p (Dict.keys d)).
  { intros Hin. apply dict_in_keys_entry in Hin as [v Hin].
    apply Hfresh. change p with (snd (v, p)). apply in_map. auto. }
  rewrite length_app. cbn [List.length].
  destruct (reference_offer_cases K d m p HK Hnd Hle)
    as [[Hfree ->] |
        [Hcap (k & wm & Hmax & Hget & Hin & Hub & [[Hlt ->] | [Hge ->]])]].
  - (* free capacity *)
    rewrite (dict_setitem_absent d p m (dict_get_not_in_keys d p Habsent)).
    repeat split.
    + unfold Dict.len in *. rewrite length_app. simpl. lia.
    + intros k v [Hk|[[= <- <-]|[]]]%in_app_or; apply in_or_app; simpl; auto.
    + intros m0 p0 [H0|[[= <- <-]|[]]]%in_app_or.
      * destruct (Hbest m0 p0 H0) as [Hin|[Hfull _]]; [|lia].
        left. apply in_or_app. now left.
      * left. apply in_or_app. right. now left.
  - (* at capacity, accepted *)
    assert (Habsent' : Dict.get (Dict.remove d k) p = None).
    { apply dict_get_not_in_keys. intros Hp. apply Habsent.
      eapply dict_keys_remove_incl, Hp. }
    rewrite (dict_setitem_absent _ p m Habsent').
    assert (Hlen' : Dict.len (Dict.remove d k ++ [(p, m)]) = K).
    { unfold Dict.len in *. rewrite length_app. simpl.
      pose proof (dict_length_remove d k wm Hget). lia. }
    repeat split.
    + lia.
    + intros q v [Hq|[[= <- <-]|[]]]%in_app_or; apply in_or_app; simpl; auto.
      left. apply Hfrom. now apply (dict_in_remove d k q v Hnd).
    + assert (Hnew : forall q v, In (q, v) (Dict.remove d k ++ [(p, m)]) ->
                                 (v <= wm)%Q).
      { intros q v [Hq|[[= <- <-]|[]]]%in_app_or; [|lra].
        apply (Hub q). now apply (dict_in_remove d k q v Hnd). }
      intros m0 p0 [H0|[[= <- <-]|[]]]%in_app_or.
      * destruct (Hbest m0 p0 H0) as [Hin0|[_ Hall]].
        -- destruct (String.eqb_spec p0 k) as [->|Hne].
           ++ right. split; [exact Hlen'|]. intros q v Hq.
              assert (m0 = wm).
              { pose proof (dict_get_of_in d k m0 Hnd Hin0). congruence. }
              subst m0. now apply (Hnew q).
           ++ left. apply in_or_app. left.
              now apply (dict_in_remove d k p0 m0 Hnd).
        -- right. split; [exact Hlen'|]. intros q v Hq.
           specialize (Hnew q v Hq). specialize (Hall k wm Hin). lra.
      * left. apply in_or_app. right. now left.
  - (* at capacity, rejected *)
    repeat split.
    + lia.
    + intros q v Hq. apply in_or_app. left. now apply Hfrom.
    + intros m0 p0 [H0|[[= <- <-]|[]]]%in_app_or.
      * exact (Hbest m0 p0 H0).
      * right. split; [exact Hcap|]. intros q v Hq.
        specialize (Hub q v Hq). lra.
Qed.

Lemma keep_best_run (K : Z) (offers seen : list (Q * string)) (d : Dict.t) :
  1 <= K ->
  NoDup (map snd (seen ++ offers)) ->
  NoDup (Dict.keys d) ->
  Dict.len d = Z.min (Z.of_nat (List.length seen)) K ->
  (forall k v, In (k, v) d -> In (v, k) seen) ->
  (forall m0 p0, In (m0, p0) seen ->
                 In (p0, m0) d \/
                 Dict.len d = K /\ forall k v, In (k, v) d -> (v <= m0)%Q) ->
  Dict.len (fold_left (Reference.offer K) offers d)
  = Z.min (Z.of_nat (List.length (seen ++ offers))) K /\
  (forall k v, In (k, v) (fold_left (Reference.offer K) offers d) ->
               In (v, k) (seen ++ offers)) /\
  (forall m0 p0, In (m0, p0) (seen ++ offers) ->
                 In (p0, m0) (fold_left (Reference.offer K) offers d) \/
                 Dict.len (fold_left (Reference.offer K) offers d) = K /\
                 forall k v,
                   In (k, v) (fold_left (Reference.offer K) offers d) ->
                   (v <= m0)%Q).
Proof.
  intros HK. revert seen d.
  induction offers as [|[m p] offers IH];
    intros seen d Hids Hnd Hlen Hfrom Hbest.
  - rewrite app_nil_r. simpl. auto.
  - assert (Hfresh : ~ In p (map snd seen)).
    { rewrite map_app in Hids. simpl in Hids.
      apply NoDup_remove_2 in Hids. intros H. apply Hids.
      apply in_or_app. now left. }
    destruct (keep_best_step K d seen m p HK Hnd Hlen Hfrom Hbest Hfresh)
      as (Hnd' & Hlen' & Hfrom' & Hbest').
    replace (seen ++ (m, p) :: offers) with ((seen ++ [(m, p)]) ++ offers)
      in * by now rewrite <- app_assoc.
    simpl. now apply IH.
Qed.

Section KeepsBest.
Context {W : Type}.
Variables (K : Z) (save del : callback W).
Hypothesis K_pos : 1 <= K.
Hypothesis save_returns : never_raises save.
Hypothesis del_returns : never_raises del.

(** X5.  A [KBest] with capacity [K >= 1] and callbacks that return,
    offered any scores under pairwise distinct identifiers, ends with the
    [K] best checkpoints of the whole run: it holds [min(n, K)] entries,
    each of them an offered checkpoint with its score, and every offered
    checkpoint is either retained or has a score no lower than every
    retained one. *)
Theorem kbest_keeps_the_best (offers : list (Q * string)) (w : W) :
  NoDup (map snd offers) ->
  exists o' s',
    KBest.__init__ K (Some save) del = Ret o' /\
    kbest_offer_all offers (start o' w) = (Ret tt, s') /\
    Dict.len (KBest.best_records (self s'))
    = Z.min (Z.of_nat (List.length offers)) K /\
    (forall k v, In (k, v) (KBest.best_records (self s')) ->
                 In (v, k) offers) /\
    (forall m p, In (m, p) offers ->
                 In (p, m) (KBest.best_records (self s')) \/
                 forall k v, In (k, v) (KBest.best_records (self s')) ->
                             (v <= m)%Q).
Proof.
  intros Hids.
  destruct (kbest_run_refines K save del K_pos save_returns del_returns
              offers [] w []) as (w' & tr' & Hrun).
  - constructor.
  - unfold Dict.len. simpl. lia.
  - eexists. eexists. split; [reflexivity|]. split; [exact Hrun|]. simpl.
    destruct (keep_best_run K offers [] [] K_pos Hids)
      as (Hlen & Hfrom & Hbest).
    + constructor.
    + unfold Dict.len. simpl. lia.
    + intros k v [].
    + intros m0 p0 [].
    + split; [exact Hlen|]. split; [exact Hfrom|].
      intros m p Hin. destruct (Hbest m p Hin) as [H|[_ H]]; auto.
Qed.

End KeepsBest.

Lemma kbest_keeps_the_best_witness :
  exists s',
    kbest_offer_all
      [(5 # 10, "a"); (3 # 10, "b"); (7 # 10, "c"); (1 # 10, "d")]
      (start (fs_kbest 2 fs_discard []) [])
    = (Ret tt, s') /\
    Dict.len (KBest.best_records (self s')) = 2.
Proof.
  assert (HK : 1 <= 2) by lia.
  destruct (kbest_keeps_the_best 2 fs_save fs_discard HK
              fs_save_never_raises fs_discard_never_raises
              [(5 # 10, "a"); (3 # 10, "b"); (7 # 10, "c"); (1 # 10, "d")] []
              ltac:(simpl; repeat constructor; simpl; intuition discriminate))
    as (o' & s' & Hinit & Hrun & Hlen & _).
  injection Hinit as <-.
  exists s'. split; [exact Hrun | exact Hlen].
Defined.

(** ** The checkpoint directory *)

Lemma fs_remove_present (k : string) (files : list string) :
  In k files ->
  fs_remove k files
  = (None, filter (fun q => negb (String.eqb k q)) files).
Proof.
  intros Hin. unfold fs_remove.
  replace (existsb (String.eqb k) files) with true; [reflexivity|].
  symmetry. apply existsb_exists. exists k.
  split; [exact Hin | apply String.eqb_refl].
Qed.

Lemma in_filter_other (k x : string) (files : list string) :
  In x (filter (fun q => negb (String.eqb k q)) files)
  <-> In x files /\ x <> k.
Proof.
  rewrite filter_In. destruct (String.eqb_spec k x) as [->|Hne]; simpl.
  - split; [intros [_ H]; discriminate | intros [_ H]; now elim H].
  - split; intros [H _]; (split; [exact H | congruence]).
Qed.

Lemma dict_in_keys_remove (d : Dict.t) (k x : string) :
  NoDup (Dict.keys d) ->
  In x (Dict.keys (Dict.remove d k)) <-> In x (Dict.keys d) /\ x <> k.
Proof.
  intros Hnd. split.
  - intros Hx. apply dict_in_keys_entry in Hx as [v Hv].
    apply (dict_in_remove d k x v Hnd) in Hv as [Hv Hne].
    split; [|exact Hne]. change x with (fst (x, v)). now apply in_map.
  - intros [Hx Hne]. apply dict_in_keys_entry in Hx as [v Hv].
    change x with (fst (x, v)). apply in_map.
    now apply (dict_in_remove d k x v Hnd).
Qed.

Lemma nodup_same_length (l1 l2 : list string) :
  NoDup l1 -> NoDup l2 -> (forall x, In x l1 <-> In x l2) ->
  List.length l1 = List.length l2.
Proof.
  intros H1 H2 H. apply Nat.le_antisymm; apply NoDup_incl_length; auto;
    intros x Hx; now apply H.
Qed.

Lemma reference_run_nodup (K : Z) (offers : list (Q * string)) (d : Dict.t) :
  NoDup (Dict.keys d) ->
  Dict.len d <= K ->
  NoDup (Dict.keys (fold_left (Reference.offer K) offers d)).
Proof.
  revert d. induction offers as [|o offers IH]; intros d Hnd Hlen;
    [exact Hnd|].
  simpl. destruct (reference_offer_inv K d o Hnd Hlen). now apply IH.
Qed.

Section Directory.
Variable K : Z.
Hypothesis K_pos : 1 <= K.

(** One offer of a fresh identifier, on a directory that holds exactly the
    retained checkpoints: [os.remove] finds the file it is asked to
    delete, and the directory follows the mapping. *)
Lemma kbest_dir_step (d : Dict.t) (files : list string) (tr : list event)
    (m : Q) (p : string) :
  NoDup (Dict.keys d) ->
  Dict.len d <= K ->
  NoDup files ->
  (forall x, In x files <-> In x (Dict.keys d)) ->
  ~ In p (Dict.keys d) ->
  exists files' tr',
    KBest.add_checkpoint m p (mkState (fs_kbest K fs_remove d) files tr)
    = (Ret tt,
       mkState (fs_kbest K fs_remove (Reference.offer K d (m, p)))
         files' tr') /\
    NoDup files' /\
    (forall x, In x files' <->
               In x (Dict.keys (Reference.offer K d (m, p)))) /\
    (forall x, In x (Dict.keys (Reference.offer K d (m, p))) ->
               In x (Dict.keys d) \/ x = p).
Proof.
  intros Hnd Hlen Hnf Hsame Hfresh.
  set (s := mkState (fs_kbest K fs_remove d) files tr).
  assert (Hflag : (K =? -1) = false) by (apply Z.eqb_neq; lia).
  assert (Hpf : ~ In p files) by (intros H; now apply Hfresh, Hsame).
  destruct (reference_offer_cases K d m p K_pos Hnd Hlen)
    as [[Hfree ->] |
        [Hcap (k & wm & Hmax & Hget & Hin & Hub & [[Hlt ->] | [Hge ->]])]].
  - assert (Hfull : KBest.full (self s) = false).
    { unfold KBest.full. simpl. rewrite Hflag. simpl. apply Z.eqb_neq. lia. }
    rewrite (kbest_add_accepted _ _ _ (kbest_should_save_free _ m Hfull)).
    rewrite (kbest_update_free_ok s m p fs_save (p :: files)
               Hfull eq_refl eq_refl).
    exists (p :: files), (tr ++ [Save p]). split; [reflexivity|].
    rewrite (dict_setitem_absent d p m (dict_get_not_in_keys d p Hfresh)).
    unfold Dict.keys. rewrite map_app. simpl.
    split; [now constructor|]. split.
    + intros x. rewrite in_app_iff. simpl. rewrite Hsame.
      unfold Dict.keys. intuition.
    + intros x. rewrite in_app_iff. simpl. intuition.
  - assert (Hfull : KBest.full (self s) = true).
    { unfold KBest.full. simpl. rewrite Hflag. simpl. apply Z.eqb_eq. lia. }
    assert (Hs : KBest.should_save (self s) m = Ret true).
    { rewrite (kbest_should_save_full (self s) m k wm Hfull Hmax Hget).
      f_equal. now apply Qltb_lt. }
    assert (Hk : In k files).
    { apply Hsame. change k with (fst (k, wm)). now apply in_map. }
    rewrite (kbest_add_accepted _ _ _ Hs).
    rewrite (kbest_update_full_ok s m p k _ fs_save _
               Hfull Hmax (fs_remove_present k files Hk) eq_refl eq_refl).
    do 2 eexists. split; [reflexivity|].
    assert (Habsent : Dict.get (Dict.remove d k) p = None).
    { apply dict_get_not_in_keys. intros Hp. apply Hfresh.
      eapply dict_keys_remove_incl, Hp. }
    rewrite (dict_setitem_absent _ p m Habsent).
    unfold Dict.keys at 1 2. rewrite map_app. simpl.
    split; [|split].
    + constructor; [|now apply NoDup_filter].
      rewrite in_filter_other. tauto.
    + intros x. rewrite in_app_iff. simpl.
      fold (Dict.keys (Dict.remove d k)).
      rewrite in_filter_other, (dict_in_keys_remove d k x Hnd), Hsame.
      intuition.
    + intros x. rewrite in_app_iff. simpl.
      fold (Dict.keys (Dict.remove d k)).
      rewrite (dict_in_keys_remove d k x Hnd). intuition.
  - assert (Hfull : KBest.full (self s) = true).
    { unfold KBest.full. simpl. rewrite Hflag. simpl. apply Z.eqb_eq. lia. }
    assert (Hs : KBest.should_save (self s) m = Ret false).
    { rewrite (kbest_should_save_full (self s) m k wm Hfull Hmax Hget).
      f_equal. destruct (Qltb m wm) eqn:E; [|reflexivity].
      apply Qltb_lt in E. lra. }
    rewrite (kbest_add_rejected _ _ _ Hs).
    exists files, tr. split; [reflexivity|]. auto.
Qed.

Lemma kbest_dir_run (offers : list (Q * string)) (d : Dict.t)
    (files : list string) (tr : list event) :
  NoDup (Dict.keys d) ->
  Dict.len d <= K ->
  NoDup files ->
  (forall x, In x files <-> In x (Dict.keys d)) ->
  NoDup (map snd offers) ->
  (forall p, In p (map snd offers) -> ~ In p (Dict.keys d)) ->
  exists files' tr',
    kbest_offer_all offers (mkState (fs_kbest K fs_remove d) files tr)
    = (Ret tt,
       mkState
         (fs_kbest K fs_remove (fold_left (Reference.offer K) offers d))
         files' tr') /\
    NoDup files' /\
    (forall x, In x files' <->
               In x (Dict.keys (fold_left (Reference.offer K) offers d))).
Proof.
  revert d files tr.
  induction offers as [|[m p] offers IH];
    intros d files tr Hnd Hlen Hnf Hsame Hids Hfresh.
  - exists files, tr. simpl. auto.
  - simpl in Hids. inversion Hids as [|? ? Hp Hids']; subst.
    destruct (kbest_dir_step d files tr m p Hnd Hlen Hnf Hsame)
      as (files1 & tr1 & Hstep & Hnf1 & Hsame1 & Hkeys1).
    { apply Hfresh. now left. }
    destruct (reference_offer_inv K d (m, p) Hnd Hlen) as [Hnd1 Hlen1].
    destruct (IH _ files1 tr1 Hnd1 Hlen1 Hnf1 Hsame1 Hids')
      as (files2 & tr2 & Hrun & Hnf2 & Hsame2).
    { intros q Hq Hin. destruct (Hkeys1 q Hin) as [Hd| ->].
      - apply (Hfresh q); [now right | exact Hd].
      - contradiction. }
    exists files2, tr2. simpl. unfold bind. rewrite Hstep. auto.
Qed.

(** X6.  The usage of the class docstring of [KBest]: an empty directory,
    a save function that writes the file, [os.remove] as the delete
    function, and pairwise distinct paths.  For a capacity [K >= 1] and
    any scores the run returns normally ([os.remove] never meets a missing
    file), and afterwards the directory holds exactly the retained
    checkpoints, [min(n, K)] files in all. *)
Theorem kbest_directory_matches (offers : list (Q * string)) :
  NoDup (map snd offers) ->
  exists o s',
    KBest.__init__ K (Some fs_save) fs_remove = Ret o /\
    kbest_offer_all offers (start o []) = (Ret tt, s') /\
    NoDup (world s') /\
    (forall x, In x (world s') <->
               In x (Dict.keys (KBest.best_records (self s')))) /\
    Z.of_nat (List.length (world s'))
    = Z.min (Z.of_nat (List.length offers)) K.
Proof.
  intros Hids.
  destruct (kbest_dir_run offers [] [] []) as (files & tr & Hrun & Hnf & Hsame).
  - constructor.
  - unfold Dict.len. simpl. lia.
  - constructor.
  - intros x. simpl. tauto.
  - exact Hids.
  - intros p _ [].
  - eexists. eexists. split; [reflexivity|]. split; [exact Hrun|].
    simpl. split; [exact Hnf|]. split; [exact Hsame|].
    destruct (keep_best_run K offers [] [] K_pos Hids) as (Hlen & _).
    + constructor.
    + unfold Dict.len. simpl. lia.
    + intros k v [].
    + intros m0 p0 [].
    + simpl in Hlen. rewrite <- Hlen. unfold Dict.len. f_equal.
      rewrite <- (length_map fst (fold_left (Reference.offer K) offers [])).
      apply nodup_same_length; [exact Hnf | | exact Hsame].
      apply reference_run_nodup; [constructor|].
      unfold Dict.len. simpl. lia.
Qed.

End Directory.

Lemma kbest_directory_matches_witness :
  exists s',
    kbest_offer_all [(5 # 10, "a"); (3 # 10, "b"); (1 # 10, "c")]
      (start (fs_kbest 2 fs_remove []) [])
    = (Ret tt, s') /\
    Z.of_nat (List.length (world s')) = 2.
Proof.
  assert (HK : 1 <= 2) by lia.
  destruct (kbest_directory_matches 2 HK
              [(5 # 10, "a"); (3 # 10, "b"); (1 # 10, "c")]
              ltac:(simpl; repeat constructor; simpl; intuition discriminate))
    as (o & s' & Hinit & Hrun & _ & _ & Hlen).
  injection Hinit as <-.
  exists s'. split; [exact Hrun | exact Hlen].
Defined.

Section LatestDirectory.
Variable K : Z.
Hypothesis K_pos : 1 <= K.

Lemma klatest_dir_step (l files : list string) (tr : list event)
    (p : string) :
  NoDup l ->
  Z.of_nat (List.length l) <= K ->
  NoDup files ->
  (forall x, In x files <-> In x l) ->
  ~ In p l ->
  exists l' files' tr',
    KLatest.add_checkpoint p (mkState (fs_klatest K fs_remove l) files tr)
    = (Ret tt, mkState (fs_klatest K fs_remove l') files' tr') /\
    NoDup l' /\
    Z.of_nat (List.length l') = Z.min (Z.of_nat (List.length l) + 1) K /\
    NoDup files' /\
    (forall x, In x files' <-> In x l') /\
    (forall x, In x l' -> In x l \/ x = p).
Proof.
  intros Hnd Hlen Hnf Hsame Hfresh.
  set (s := mkState (fs_klatest K fs_remove l) files tr).
  assert (Hflag : (K =? -1) = false) by (apply Z.eqb_neq; lia).
  assert (Hpf : ~ In p files) by (intros H; now apply Hfresh, Hsame).
  destruct (Z.eq_dec (Z.of_nat (List.length l)) K) as [Hcap|Hfree].
  - assert (Hfull : KLatest.full (self s) = true).
    { unfold KLatest.full. simpl. rewrite Hflag. simpl. now apply Z.eqb_eq. }
    destruct l as [|x l0]; [simpl in Hcap; lia|].
    inversion Hnd as [|? ? Hx Hnd0]; subst.
    assert (Hxf : In x files) by (apply Hsame; now left).
    rewrite (klatest_add_full_ok s p x l0 _ fs_save _
               Hfull eq_refl (fs_remove_present x files Hxf)
               eq_refl eq_refl).
    do 3 eexists. split; [reflexivity|].
    split; [|split; [|split; [|split]]].
    + apply NoDup_app; [exact Hnd0 | repeat constructor; simpl; tauto |].
      intros y Hy [<-|[]]. apply Hfresh. now right.
    + rewrite length_app. cbn [List.length] in *. lia.
    + constructor; [|now apply NoDup_filter].
      rewrite in_filter_other. tauto.
    + intros y. simpl. rewrite in_filter_other, Hsame, in_app_iff. simpl.
      split.
      * intros [<-|[[<-|Hy] Hne]]; [now right; left | now elim Hne | now left].
      * intros [Hy|[<-|[]]]; [|now left].
        right. split; [now right|]. intros ->. contradiction.
    + intros y [Hy|[<-|[]]]%in_app_or; auto. left. now right.
  - assert (Hfull : KLatest.full (self s) = false).
    { unfold KLatest.full. simpl. rewrite Hflag. simpl. now apply Z.eqb_neq. }
    rewrite (klatest_add_free_ok s p fs_save (p :: files)
               Hfull eq_refl eq_refl).
    do 3 eexists. split; [reflexivity|].
    split; [|split; [|split; [|split]]].
    + apply NoDup_app; [exact Hnd | repeat constructor; simpl; tauto |].
      intros y Hy [<-|[]]. contradiction.
    + rewrite length_app. simpl. lia.
    + now constructor.
    + intros y. simpl. rewrite Hsame, in_app_iff. simpl. tauto.
    + intros y [Hy|[<-|[]]]%in_app_or; auto.
Qed.

Lemma klatest_dir_run (offers l files : list string) (tr : list event) :
  NoDup l ->
  Z.of_nat (List.length l) <= K ->
  NoDup files ->
  (forall x, In x files <-> In x l) ->
  NoDup offers ->
  (forall p, In p offers -> ~ In p l) ->
  exists l' files' tr',
    klatest_offer_all offers (mkState (fs_klatest K fs_remove l) files tr)
    = (Ret tt, mkState (fs_klatest K fs_remove l') files' tr') /\
    NoDup l' /\
    Z.of_nat (List.length l')
    = Z.min (Z.of_nat (List.length l + List.length offers)) K /\
    NoDup files' /\
    (forall x, In x files' <-> In x l').
Proof.
  revert l files tr.
  induction offers as [|p offers IH];
    intros l files tr Hnd Hlen Hnf Hsame Hids Hfresh.
  - exists l, files, tr. simpl. rewrite Nat.add_0_r.
    split; [reflexivity|]. split; [exact Hnd|]. split; [lia|]. auto.
  - inversion Hids as [|? ? Hp Hids']; subst.
    destruct (klatest_dir_step l files tr p Hnd Hlen Hnf Hsame)
      as (l1 & files1 & tr1 & Hstep & Hnd1 & Hlen1 & Hnf1 & Hsame1 & Hin1).
    { apply Hfresh. now left. }
    destruct (IH l1 files1 tr1 Hnd1 ltac:(lia) Hnf1 Hsame1 Hids')
      as (l2 & files2 & tr2 & Hrun & Hnd2 & Hlen2 & Hnf2 & Hsame2).
    { intros q Hq Hin. destruct (Hin1 q Hin) as [Hl| ->].
      - apply (Hfresh q); [now right | exact Hl].
      - contradiction. }
    exists l2, files2, tr2. simpl. unfold bind. rewrite Hstep.
    split; [exact Hrun|]. split; [exact Hnd2|]. split; [|auto].
    rewrite Hlen2. cbn [List.length]. lia.
Qed.

(** X7.  The usage of the class docstring of [KLatest]: an empty
    directory, a save function that writes the file, a delete function
    that fails on a missing file ([f.unlink()]), and pairwise distinct
    paths.  For a capacity [K >= 1] the run returns normally, and
    afterwards the directory holds exactly the retained checkpoints,
    [min(n, K)] files in all. *)
Theorem klatest_directory_matches (offers : list string) :
  NoDup offers ->
  exists o s',
    KLatest.__init__ K (Some fs_save) fs_remove = Ret o /\
    klatest_offer_all offers (start o []) = (Ret tt, s') /\
    NoDup (world s') /\
    (forall x, In x (world s') <->
               In x (KLatest.latest_records (self s'))) /\
    Z.of_nat (List.length (world s'))
    = Z.min (Z.of_nat (List.length offers)) K.
Proof.
  intros Hids.
  destruct (klatest_dir_run offers [] [] [])
    as (l & files & tr & Hrun & Hnd & Hlen & Hnf & Hsame).
  - constructor.
  - simpl. lia.
  - constructor.
  - intros x. tauto.
  - exact Hids.
  - intros p _ [].
  - eexists. eexists. split; [reflexivity|]. split; [exact Hrun|].
    simpl. split; [exact Hnf|]. split; [exact Hsame|].
    simpl in Hlen. rewrite <- Hlen. f_equal.
    now apply nodup_same_length.
Qed.

End LatestDirectory.

Lemma klatest_directory_matches_witness :
  exists s',
    klatest_offer_all ["x"; "y"; "z"; "w"]
      (start (fs_klatest 3 fs_remove []) [])
    = (Ret tt, s') /\
    Z.of_nat (List.length (world s')) = 3.
Proof.
  assert (HK : 1 <= 3) by lia.
  destruct (klatest_directory_matches 3 HK ["x"; "y"; "z"; "w"]
              ltac:(repeat constructor; simpl; intuition discriminate))
    as (o & s' & Hinit & Hrun & _ & _ & Hlen).
  injection Hinit as <-.
  exists s'. split; [exact Hrun | exact Hlen].
Defined.

(** ** A retainer without a save function *)

Section NoSaveFn.
Context {W : Type}.

(** X8.  A retainer constructed with the default [save_fn=None] and a
    [max_size] other than zero cannot take a single checkpoint: the first
    offer of any run raises [TypeError] (calling [None]), nothing is
    tracked, no callback is invoked, and the loop of the caller ends there.
    This holds for [KBest] and for [KLatest]. *)
Theorem missing_save_fn_raises (max_size : Z) (del_fn : callback W)
    (metric : Q) (path : string) (rest : list (Q * string))
    (rest' : list string) (w : W) :
  max_size <> 0 ->
  (exists o,
      KBest.__init__ max_size None del_fn = Ret o /\
      kbest_offer_all ((metric, path) :: rest) (start o w)
      = (Raise TypeError, start o w)) /\
  (exists o,
      KLatest.__init__ max_size None del_fn = Ret o /\
      klatest_offer_all (path :: rest') (start o w)
      = (Raise TypeError, start o w)).
Proof.
  intros Hne.
  split; eexists; (split; [reflexivity|]); simpl; unfold bind.
  - set (s := start _ w).
    assert (Hfull : KBest.full (self s) = false).
    { unfold KBest.full. apply andb_false_intro2, Z.eqb_neq.
      unfold Dict.len. simpl. lia. }
    rewrite (kbest_add_accepted _ _ _ (kbest_should_save_free _ metric Hfull)).
    now rewrite (kbest_update_free_no_save_fn s metric path Hfull eq_refl).
  - set (s := start _ w).
    assert (Hfull : KLatest.full (self s) = false).
    { unfold KLatest.full. apply andb_false_intro2, Z.eqb_neq.
      simpl. lia. }
    now rewrite (klatest_add_free_no_save_fn s path Hfull eq_refl).
Qed.

(** X9.  A [KLatest] constructed with [max_size = 0] is full while empty,
    so every offer pops from an empty list: it raises [IndexError], no
    callback is invoked and nothing is tracked. *)
Theorem klatest_capacity_zero_raises (save_fn : option (callback W))
    (del_fn : callback W) (path : string) (rest : list string) (w : W) :
  exists o,
    KLatest.__init__ 0 save_fn del_fn = Ret o /\
    KLatest.full o = true /\
    KLatest.add_checkpoint path (start o w) = (Raise IndexError, start o w) /\
    klatest_offer_all (path :: rest) (start o w)
    = (Raise IndexError, start o w).
Proof.
  eexists. split; [reflexivity|]. repeat split.
Qed.

End NoSaveFn.

Lemma missing_save_fn_raises_witness :
  kbest_offer_all [(1 # 2, "a"); (1 # 3, "b")]
    (start (KBest.mk [] None fs_remove 5 false) [])
  = (Raise TypeError, start (KBest.mk [] None fs_remove 5 false) []) /\
  klatest_offer_all ["a"; "b"]
    (start (KLatest.mk [] None fs_remove 5 false) [])
  = (Raise TypeError, start (KLatest.mk [] None fs_remove 5 false) []).
Proof.
  assert (H5 : 5 <> 0) by lia.
  destruct (missing_save_fn_raises (W := list string) 5 fs_remove
              (1 # 2) "a" [(1 # 3, "b")] ["b"] [] H5)
    as [(o & Hinit & Hrun) (o' & Hinit' & Hrun')].
  injection Hinit as <-. injection Hinit' as <-.
  split; [exact Hrun | exact Hrun'].
Defined.

(** ** A negative capacity *)

Section Negative.
Context {W : Type}.
Variables (K : Z) (save del : callback W).
Hypothesis K_neg : K < 0.
Hypothesis save_returns : never_raises save.

Let nb : KBest.t W := KBest.mk [] (Some save) del K (K =? -1).
Let nl : KLatest.t W := KLatest.mk [] (Some save) del K (K =? -1).

Lemma kbest_negative_run (offers : list (Q * string)) (d : Dict.t) (w : W)
    (tr : list event) :
  exists w',
    kbest_offer_all offers (mkState (KBest.with_best_records nb d) w tr)
    = (Ret tt,
       mkState (KBest.with_best_records nb (set_all offers d)) w'
         (tr ++ map Save (map snd offers))).
Proof.
  revert d w tr. induction offers as [|[m p] offers IH]; intros d w tr.
  - exists w. simpl. now rewrite app_nil_r.
  - simpl. unfold bind.
    set (s := mkState (KBest.with_best_records nb d) w tr).
    assert (Hfull : KBest.full (self s) = false).
    { unfold KBest.full. apply andb_false_intro2, Z.eqb_neq.
      unfold Dict.len. simpl. lia. }
    destruct (never_raises_call save p w save_returns) as [w1 Hf].
    rewrite (kbest_add_accepted _ _ _ (kbest_should_save_free _ m Hfull)).
    rewrite (kbest_update_free_ok s m p save w1 Hfull eq_refl Hf).
    destruct (IH (Dict.setitem d p m) w1 (tr ++ [Save p])) as [w2 Hrun].
    exists w2. rewrite <- app_assoc in Hrun. exact Hrun.
Qed.

Lemma klatest_negative_run (offers l : list string) (w : W)
    (tr : list event) :
  exists w',
    klatest_offer_all offers (mkState (KLatest.with_latest_records nl l) w tr)
    = (Ret tt,
       mkState (KLatest.with_latest_records nl (l ++ offers)) w'
         (tr ++ map Save offers)).
Proof.
  revert l w tr. induction offers as [|p offers IH]; intros l w tr.
  - exists w. simpl. now rewrite !app_nil_r.
  - simpl. unfold bind.
    set (s := mkState (KLatest.with_latest_records nl l) w tr).
    assert (Hfull : KLatest.full (self s) = false).
    { unfold KLatest.full. apply andb_false_intro2, Z.eqb_neq.
      simpl. lia. }
    destruct (never_raises_call save p w save_returns) as [w1 Hf].
    rewrite (klatest_add_free_ok s p save w1 Hfull eq_refl Hf).
    destruct (IH (l ++ [p]) w1 (tr ++ [Save p])) as [w2 Hrun].
    exists w2. rewrite <- !app_assoc in Hrun. exact Hrun.
Qed.

(** X10.  Any negative [max_size], not only the sentinel [-1], switches
    the bound off: the number of retained identifiers never equals it, so
    with a save callback that returns every offer of any run is accepted
    and kept, [del_fn] is never invoked, and the retained identifiers
    outnumber [max_size] from the first offer on. *)
Theorem negative_max_size_is_unbounded (offers : list (Q * string))
    (paths : list string) (w : W) :
  (exists o s',
      KBest.__init__ K (Some save) del = Ret o /\
      kbest_offer_all offers (start o w) = (Ret tt, s') /\
      KBest.best_records (self s') = set_all offers [] /\
      (forall p, In p (map snd offers) ->
                 In p (Dict.keys (KBest.best_records (self s')))) /\
      saved (trace s') = map snd offers /\
      deleted (trace s') = [] /\
      K < Dict.len (KBest.best_records (self s'))) /\
  (exists o s',
      KLatest.__init__ K (Some save) del = Ret o /\
      klatest_offer_all paths (start o w) = (Ret tt, s') /\
      KLatest.latest_records (self s') = paths /\
      saved (trace s') = paths /\
      deleted (trace s') = [] /\
      K < Z.of_nat (List.length (KLatest.latest_records (self s')))).
Proof.
  split.
  - destruct (kbest_negative_run offers [] w []) as [w' Hrun].
    exists nb. eexists. split; [reflexivity|]. split; [exact Hrun|].
    simpl. rewrite saved_map_Save, deleted_map_Save.
    repeat split.
    + intros p Hp. apply set_all_keys. now right.
    + unfold Dict.len. lia.
  - destruct (klatest_negative_run paths [] w []) as [w' Hrun].
    exists nl. eexists. split; [reflexivity|]. split; [exact Hrun|].
    simpl. rewrite saved_map_Save, deleted_map_Save. repeat split. lia.
Qed.

End Negative.

Lemma negative_max_size_is_unbounded_witness :
  exists s',
    klatest_offer_all ["x"; "y"; "z"]
      (start (fs_klatest (-5) failing_remove []) [])
    = (Ret tt, s') /\
    KLatest.latest_records (self s') = ["x"; "y"; "z"] /\
    deleted (trace s') = [].
Proof.
  assert (HK : -5 < 0) by lia.
  destruct (negative_max_size_is_unbounded (-5) fs_save failing_remove HK
              fs_save_never_raises [] ["x"; "y"; "z"] [])
    as [_ (o & s' & Hinit & Hrun & Hrec & _ & Hdel & _)].
  injection Hinit as <-.
  exists s'. split; [exact Hrun|]. split; [exact Hrec | exact Hdel].
Defined.

(** ** What is deleted was saved *)

Lemma dict_keys_setitem_incl (d : Dict.t) (k x : string) (v : Q) :
  In x (Dict.keys (Dict.setitem d k v)) -> In x (Dict.keys d) \/ x = k.
Proof.
  rewrite dict_keys_setitem.
  destruct (existsb (String.eqb k) (Dict.keys d)); [now left|].
  intros [H|[<-|[]]]%in_app_or; auto.
Qed.

Section DeletedWasSaved.
Context {W : Type}.

Lemma kbest_reachable_saved (K : Z) (s : state W (KBest.t W)) :
  kbest_reachable K s ->
  incl (Dict.keys (KBest.best_records (self s))) (saved (trace s)) /\
  incl (deleted (trace s)) (saved (trace s)).
Proof.
  induction 1 as [sf df o w Hinit | s metric path Hreach IH | s w Hreach IH].
  - injection Hinit as <-. simpl. split; apply incl_refl.
  - destruct IH as [Hkeys Hdel].
    destruct (kbest_offer_outcome s metric path)
      as (d' & w' & evs & -> & H). simpl.
    rewrite saved_app, deleted_app.
    destruct H as [(_ & _ & -> & -> & _) | [(e & _ & -> & Hevs) |
                   [(_ & _ & -> & ->) |
                    [(k & e & _ & _ & Hmax & _ & -> & Hevs) |
                     (k & _ & _ & Hmax & _ & -> & ->)]]]].
    + simpl. rewrite !app_nil_r. now split.
    + split.
      * apply incl_appl, Hkeys.
      * destruct Hevs as [[-> _]| ->]; simpl; rewrite app_nil_r;
          apply incl_appl, Hdel.
    + simpl. rewrite app_nil_r. split.
      * intros x [Hx| ->]%dict_keys_setitem_incl; apply in_or_app;
          [left; now apply Hkeys | right; now left].
      * apply incl_appl, Hdel.
    + apply dict_max_by_value_in, Hkeys in Hmax. split.
      * intros x Hx%dict_keys_remove_incl. apply in_or_app. left.
        now apply Hkeys.
      * destruct Hevs as [-> | ->]; simpl;
          (intros x [Hx|[<-|[]]]%in_app_or; apply in_or_app; left;
           [now apply Hdel | exact Hmax]).
    + apply dict_max_by_value_in, Hkeys in Hmax. split.
      * intros x [Hx%dict_keys_remove_incl| ->]%dict_keys_setitem_incl;
          apply in_or_app; [left; now apply Hkeys | right; now left].
      * simpl. intros x [Hx|[<-|[]]]%in_app_or; apply in_or_app; left;
          [now apply Hdel | exact Hmax].
  - exact IH.
Qed.

Lemma klatest_reachable_saved (K : Z) (s : state W (KLatest.t W)) :
  klatest_reachable K s ->
  incl (KLatest.latest_records (self s)) (saved (trace s)) /\
  incl (deleted (trace s)) (saved (trace s)).
Proof.
  induction 1 as [sf df o w Hinit | s path Hreach IH | s w Hreach IH].
  - injection Hinit as <-. simpl. split; apply incl_refl.
  - destruct IH as [Hrec Hdel].
    destruct (klatest_offer_outcome s path) as (l' & w' & evs & -> & H).
    simpl. rewrite saved_app, deleted_app.
    destruct H as [(e & _ & -> & Hevs) | [(_ & _ & -> & ->) |
                   [(x & l & e & _ & Hl & _ & -> & Hevs) |
                    (x & l & _ & Hl & _ & -> & ->)]]].
    + split.
      * apply incl_appl, Hrec.
      * destruct Hevs as [[-> _]| ->]; simpl; rewrite app_nil_r;
          apply incl_appl, Hdel.
    + simpl. rewrite app_nil_r. split.
      * intros y [Hy|[<-|[]]]%in_app_or; apply in_or_app;
          [left; now apply Hrec | right; now left].
      * apply incl_appl, Hdel.
    + rewrite Hl in Hrec. split.
      * intros y Hy. apply in_or_app. left. apply Hrec. now right.
      * destruct Hevs as [-> | ->]; simpl;
          (intros y [Hy|[<-|[]]]%in_app_or; apply in_or_app; left;
           [now apply Hdel | apply Hrec; now left]).
    + rewrite Hl in Hrec. split.
      * intros y [Hy|[<-|[]]]%in_app_or; apply in_or_app;
          [left; apply Hrec; now right | right; now left].
      * simpl. intros y [Hy|[<-|[]]]%in_app_or; apply in_or_app; left;
          [now apply Hdel | apply Hrec; now left].
  - exact IH.
Qed.

(** X11.  In every state a retainer of either class can reach, whatever
    its capacity and whatever the callbacks do, [del_fn] has only ever
    been invoked on identifiers that [save_fn] had been invoked on, and
    every tracked identifier is one that [save_fn] was invoked on: the
    retainer never deletes, and never tracks, a checkpoint it did not
    save. *)
Theorem deleted_was_saved (max_size : Z) :
  (forall s : state W (KBest.t W),
      kbest_reachable max_size s ->
      incl (deleted (trace s)) (saved (trace s)) /\
      incl (Dict.keys (KBest.best_records (self s))) (saved (trace s))) /\
  (forall s : state W (KLatest.t W),
      klatest_reachable max_size s ->
      incl (deleted (trace s)) (saved (trace s)) /\
      incl (KLatest.latest_records (self s)) (saved (trace s))).
Proof.
  split; intros s Hs.
  - destruct (kbest_reachable_saved max_size s Hs). now split.
  - destruct (klatest_reachable_saved max_size s Hs). now split.
Qed.

End DeletedWasSaved.

Lemma deleted_was_saved_witness :
  incl
    (deleted
       (trace
          (snd
             (KBest.add_checkpoint (1 # 10) "b"
                (snd
                   (KBest.add_checkpoint (5 # 10) "a"
                      (start (fs_kbest 1 failing_remove []) [])))))))
    (saved
       (trace
          (snd
             (KBest.add_checkpoint (1 # 10) "b"
                (snd
                   (KBest.add_checkpoint (5 # 10) "a"
                      (start (fs_kbest 1 failing_remove []) []))))))).
Proof.
  refine (proj1 (proj1 (deleted_was_saved (W := list string) 1) _ _)).
  do 2 apply kbest_reach_step.
  apply (kbest_reach_init 1 (Some fs_save) failing_remove). reflexivity.
Defined.

(** ** Identifiers offered twice *)

Section Duplicates.
Context {W : Type}.

(** X12.  Offering to a full [KBest] an identifier that is already
    retained and is not the worst one, with a score better than the worst:
    the worst entry is evicted and the identifier's score is overwritten
    in place, so the retainer ends one entry short of its capacity and is
    no longer full. *)
Theorem duplicate_at_capacity_shrinks (s : state W (KBest.t W))
    (metric : Q) (path k : string) (f : callback W) :
  NoDup (Dict.keys (KBest.best_records (self s))) ->
  KBest.full (self s) = true ->
  KBest.should_save (self s) metric = Ret true ->
  Dict.max_by_value (KBest.best_records (self s)) = Ret k ->
  In path (Dict.keys (KBest.best_records (self s))) ->
  path <> k ->
  KBest.save_fn (self s) = Some f ->
  never_raises f ->
  never_raises (KBest.del_fn (self s)) ->
  fst (KBest.add_checkpoint metric path s) = Ret tt /\
  Dict.len (KBest.best_records
              (self (snd (KBest.add_checkpoint metric path s))))
  = Dict.len (KBest.best_records (self s)) - 1 /\
  KBest.full (self (snd (KBest.add_checkpoint metric path s))) = false /\
  Dict.get (KBest.best_records
              (self (snd (KBest.add_checkpoint metric path s)))) k = None /\
  Dict.get (KBest.best_records
              (self (snd (KBest.add_checkpoint metric path s)))) path
  = Some metric.
Proof.
  intros Hnd Hfull Hshould Hmax Hin Hne Hsave Hf Hd.
  destruct (never_raises_call _ k (world s) Hd) as [w1 Hdel].
  destruct (never_raises_call f path w1 Hf) as [w2 Hcall].
  destruct (dict_max_by_value_get _ _ Hmax) as [wm Hget].
  rewrite (kbest_add_accepted _ _ _ Hshould).
  rewrite (kbest_update_full_ok s metric path k w1 f w2
             Hfull Hmax Hdel Hsave Hcall).
  simpl.
  assert (Hpresent : Dict.get (Dict.remove (KBest.best_records (self s)) k)
                       path <> None).
  { apply dict_get_in_keys, dict_in_keys_remove; auto. }
  assert (Hlen : Dict.len
                   (Dict.setitem (Dict.remove (KBest.best_records (self s)) k)
                      path metric)
                 = Dict.len (KBest.best_records (self s)) - 1).
  { unfold Dict.len. rewrite (dict_length_setitem_present _ _ _ Hpresent).
    pose proof (dict_length_remove _ _ _ Hget). lia. }
  split; [reflexivity|]. split; [exact Hlen|]. split; [|split].
  - unfold KBest.full in *. simpl. rewrite Hlen.
    apply andb_true_iff in Hfull as [Hflag Heq]. apply Z.eqb_eq in Heq.
    apply andb_false_intro2, Z.eqb_neq. lia.
  - rewrite dict_get_setitem_other by exact Hne.
    now apply dict_get_remove_same.
  - apply dict_get_setitem_same.
Qed.

(** X13.  [KLatest] does not look for duplicates: when it is full and
    its oldest identifier occurs again later in the list, an offer invokes
    [del_fn] on that identifier and still tracks it afterwards. *)
Theorem klatest_deletes_tracked_duplicate (s : state W (KLatest.t W))
    (path x : string) (l : list string) (f : callback W) :
  KLatest.full (self s) = true ->
  KLatest.latest_records (self s) = x :: l ->
  In x l ->
  KLatest.save_fn (self s) = Some f ->
  never_raises f ->
  never_raises (KLatest.del_fn (self s)) ->
  fst (KLatest.add_checkpoint path s) = Ret tt /\
  trace (snd (KLatest.add_checkpoint path s))
  = trace s ++ [Delete x; Save path] /\
  In x (KLatest.latest_records (self (snd (KLatest.add_checkpoint path s)))).
Proof.
  intros Hfull Hl Hin Hsave Hf Hd.
  destruct (never_raises_call _ x (world s) Hd) as [w1 Hdel].
  destruct (never_raises_call f path w1 Hf) as [w2 Hcall].
  rewrite (klatest_add_full_ok s path x l w1 f w2 Hfull Hl Hdel Hsave Hcall).
  simpl. repeat split. apply in_or_app. now left.
Qed.

End Duplicates.

Lemma duplicate_at_capacity_shrinks_witness :
  Dict.len
    (KBest.best_records
       (self
          (snd
             (KBest.add_checkpoint (1 # 10) "b"
                (mkState
                   (fs_kbest 2 fs_discard [("a", 5 # 10); ("b", 3 # 10)])
                   ["b"; "a"] [])))))
  = 2 - 1.
Proof.
  refine (proj1 (proj2 (duplicate_at_capacity_shrinks
                          (mkState
                             (fs_kbest 2 fs_discard
                                [("a", 5 # 10); ("b", 3 # 10)])
                             ["b"; "a"] [])
                          (1 # 10) "b" "a" fs_save _ _ _ _ _ _ _ _ _))).
  - simpl. repeat constructor; simpl; intuition discriminate.
  - reflexivity.
  - reflexivity.
  - reflexivity.
  - simpl. auto.
  - discriminate.
  - reflexivity.
  - exact fs_save_never_raises.
  - exact fs_discard_never_raises.
Defined.

Lemma klatest_deletes_tracked_duplicate_witness :
  In "a"
    (KLatest.latest_records
       (self
          (snd
             (KLatest.add_checkpoint "b"
                (mkState (fs_klatest 2 fs_discard ["a"; "a"])
                   ["a"; "a"] []))))).
Proof.
  refine (proj2 (proj2 (klatest_deletes_tracked_duplicate
                          (mkState (fs_klatest 2 fs_discard ["a"; "a"])
                             ["a"; "a"] [])
                          "b" "a" ["a"] fs_save _ _ _ _ _ _))).
  - reflexivity.
  - reflexivity.
  - simpl. auto.
  - reflexivity.
  - exact fs_save_never_raises.
  - exact fs_discard_never_raises.
Defined.

(** * Merging the command line into a configuration *)

Section ConfMergeArgs.
Variables V C N : Type.
Variable as_dict : list (string * option V) -> N.
Variable update : C -> N -> C.

Lemma conf_remove_middle (pre post : Conf.namespace V) (k : string)
    (v : option V) :
  ~ In k (map fst pre) ->
  Conf.remove V (pre ++ (k, v) :: post) k = pre ++ post.
Proof.
  induction pre as [|[k' v'] pre IH]; simpl; intros Hk.
  - now rewrite String.eqb_refl.
  - destruct (String.eqb_spec k' k) as [->|Hne]; [tauto|].
    rewrite IH; tauto.
Qed.

Lemma conf_nth_error_middle (pre rest : Conf.namespace V)
    (x : string * option V) :
  nth_error (pre ++ x :: rest) (List.length pre) = Some x.
Proof.
  rewrite nth_error_app2 by lia. now rewrite Nat.sub_diag.
Qed.

(** While every value met is set, the loop walks to the end. *)
Lemma conf_drop_unset_all_set (rest pre : Conf.namespace V) (fuel : nat) :
  (List.length rest < fuel)%nat ->
  (forall x, In x rest -> snd x <> None) ->
  Conf.drop_unset V fuel
    (Conf.mkIter (List.length (pre ++ rest)) (List.length pre)) (pre ++ rest)
  = Some (Conf.Ok tt, pre ++ rest).
Proof.
  revert pre fuel. induction rest as [|[k v] rest IH]; intros pre fuel Hf Hset.
  - destruct fuel as [|fuel]; [simpl in Hf; lia|]. simpl.
    unfold Conf.iternext. simpl. rewrite Nat.eqb_refl.
    rewrite app_nil_r. rewrite (proj2 (nth_error_None pre _)) by lia.
    reflexivity.
  - destruct fuel as [|fuel]; [simpl in Hf; lia|]. simpl.
    unfold Conf.iternext. simpl. rewrite Nat.eqb_refl.
    rewrite conf_nth_error_middle.
    destruct v as [v|]; [|now elim (Hset (k, None)); [left|]].
    replace (pre ++ (k, Some v) :: rest)
      with ((pre ++ [(k, Some v)]) ++ rest) by now rewrite <- app_assoc.
    replace (S (List.length pre)) with (List.length (pre ++ [(k, Some v)]))
      by (rewrite length_app; simpl; lia).
    apply IH.
    + simpl in Hf. lia.
    + intros x Hx. apply Hset. now right.
Qed.

(** The first unset value is popped, and the next round finds a
    dictionary of another size. *)
Lemma conf_drop_unset_hits_unset (r1 pre r2 : Conf.namespace V) (k : string)
    (fuel : nat) :
  (List.length r1 + 1 < fuel)%nat ->
  (forall x, In x r1 -> snd x <> None) ->
  ~ In k (map fst (pre ++ r1)) ->
  Conf.drop_unset V fuel
    (Conf.mkIter (List.length (pre ++ r1 ++ (k, None) :: r2))
       (List.length pre))
    (pre ++ r1 ++ (k, None) :: r2)
  = Some (Conf.Err Conf.RuntimeError, pre ++ r1 ++ r2).
Proof.
  revert pre fuel.
  induction r1 as [|[k1 v1] r1 IH]; intros pre fuel Hf Hset Hk.
  - destruct fuel as [|[|fuel]]; try (simpl in Hf; lia). simpl app.
    rewrite app_nil_r in Hk.
    cbn [Conf.drop_unset]. unfold Conf.iternext at 1. cbn [Conf.di_used Conf.di_pos].
    rewrite Nat.eqb_refl, conf_nth_error_middle.
    rewrite (conf_remove_middle pre r2 k None Hk).
    unfold Conf.iternext. cbn [Conf.di_used Conf.di_pos].
    replace (List.length (pre ++ (k, None) :: r2) =? List.length (pre ++ r2))%nat
      with false; [reflexivity|].
    symmetry. apply Nat.eqb_neq. rewrite !length_app. simpl. lia.
  - destruct fuel as [|fuel]; [simpl in Hf; lia|].
    cbn [Conf.drop_unset]. unfold Conf.iternext at 1. cbn [Conf.di_used Conf.di_pos].
    rewrite Nat.eqb_refl.
    change (pre ++ ((k1, v1) :: r1) ++ (k, None) :: r2)
      with (pre ++ (k1, v1) :: (r1 ++ (k, None) :: r2)).
    rewrite conf_nth_error_middle.
    destruct v1 as [v1|]; [|now elim (Hset (k1, None)); [left|]].
    replace (pre ++ (k1, Some v1) :: r1 ++ (k, None) :: r2)
      with ((pre ++ [(k1, Some v1)]) ++ r1 ++ (k, None) :: r2)
      by now rewrite <- app_assoc.
    replace (pre ++ ((k1, Some v1) :: r1) ++ r2)
      with ((pre ++ [(k1, Some v1)]) ++ r1 ++ r2)
      by now rewrite <- app_assoc.
    replace (S (List.length pre))
      with (List.length (pre ++ [(k1, Some v1)]))
      by (rewrite length_app; simpl; lia).
    apply IH.
    + simpl in Hf. lia.
    + intros x Hx. apply Hset. now right.
    + intros H. apply Hk. rewrite <- app_assoc in H. exact H.
Qed.

(** X14.  [Config.merge_args] on a namespace in which some option is
    unset ([None]): the loop pops the first unset option while iterating
    over the dictionary, so the next round of the loop raises
    [RuntimeError].  The configuration is not updated, and the namespace
    has lost exactly that option; the options after it, unset ones
    included, and the entry ["config"] are still there. *)
Theorem merge_args_unset_option_raises (self : C)
    (pre post : Conf.namespace V) (k : string) :
  NoDup (map fst (pre ++ (k, None) :: post)) ->
  (forall x, In x pre -> snd x <> None) ->
  Conf.merge_args V C N as_dict update self (pre ++ (k, None) :: post)
  = Some (Conf.Err Conf.RuntimeError, self, pre ++ post).
Proof.
  intros Hnd Hset. unfold Conf.merge_args, Conf.items_iter.
  pose proof (conf_drop_unset_hits_unset pre [] post k
                (S (List.length (pre ++ (k, None) :: post)))) as H.
  change (([] : Conf.namespace V) ++ pre ++ (k, None) :: post)
    with (pre ++ (k, None) :: post) in H.
  change (List.length ([] : Conf.namespace V)) with 0%nat in H.
  rewrite H; [reflexivity | | exact Hset |].
  - rewrite length_app. simpl. lia.
  - rewrite map_app in Hnd. simpl in Hnd.
    apply NoDup_remove_2 in Hnd. simpl. intros Hin. apply Hnd.
    apply in_or_app. now left.
Qed.

(** X15.  [Config.merge_args] on a namespace in which every option is
    set: without an entry ["config"] the call raises [KeyError] and
    changes nothing; with one, the entry is taken out and the
    configuration is updated with the remaining options. *)
Theorem merge_args_all_set (self : C) (args_dict : Conf.namespace V) :
  (forall x, In x args_dict -> snd x <> None) ->
  Conf.merge_args V C N as_dict update self args_dict
  = Some
      (if Conf.contains V args_dict "config"
       then (Conf.Ok tt,
             update self (as_dict (Conf.remove V args_dict "config")),
             Conf.remove V args_dict "config")
       else (Conf.Err Conf.KeyError, self, args_dict)).
Proof.
  intros Hset. unfold Conf.merge_args, Conf.items_iter.
  pose proof (conf_drop_unset_all_set args_dict []
                (S (List.length args_dict))) as H.
  change (([] : Conf.namespace V) ++ args_dict) with args_dict in H.
  change (List.length ([] : Conf.namespace V)) with 0%nat in H.
  rewrite H; [|lia | exact Hset].
  now destruct (Conf.contains V args_dict "config").
Qed.

End ConfMergeArgs.

Lemma merge_args_unset_option_raises_witness :
  Conf.merge_args nat (list (string * option nat))
    (list (string * option nat)) (fun d => d) (fun c n => n ++ c) []
    ([("batch_size", Some 8%nat)]
     ++ ("config", None) :: [("lr", None); ("epochs", Some 3%nat)])
  = Some
      (Conf.Err Conf.RuntimeError, [],
       [("batch_size", Some 8%nat)]
       ++ [("lr", None); ("epochs", Some 3%nat)]).
Proof.
  apply (merge_args_unset_option_raises nat (list (string * option nat))
           (list (string * option nat)) (fun d => d) (fun c n => n ++ c) []
           [("batch_size", Some 8%nat)]
           [("lr", None); ("epochs", Some 3%nat)] "config").
  - simpl. repeat constructor; simpl; intuition discriminate.
  - intros x [<-|[]]. discriminate.
Defined.

Lemma merge_args_all_set_witness :
  Conf.merge_args nat (list (string * option nat))
    (list (string * option nat)) (fun d => d) (fun c n => n ++ c) []
    [("config", Some 0%nat); ("batch_size", Some 8%nat)]
  = Some (Conf.Ok tt, [("batch_size", Some 8%nat)],
          [("batch_size", Some 8%nat)]).
Proof.
  apply (merge_args_all_set nat (list (string * option nat))
           (list (string * option nat)) (fun d => d) (fun c n => n ++ c) []
           [("config", Some 0%nat); ("batch_size", Some 8%nat)]).
  intros x [<-|[<-|[]]]; discriminate.
Defined.
